(** * TMC 16-Channel Switch Decoder: CV store, CV programming, timer, button

    A shallow embedding of the decoder core (files [core_CvValues.cpp],
    [core_Functions.cpp], [core_LEDs.cpp], [core_Timer.cpp] and
    [core_ProgButton.cpp]) and the properties of its specification.

    Conventions.
    - A [uint8_t], [uint16_t] / [unsigned int] (16 bit on the AVR) or
      [unsigned long] (32 bit) value is a [Z]; where the C++ arithmetic can
      leave the range of the type, the wrap-around is written out with
      [uint8], [uint16] and [uint32].
    - The EEPROM is a [list Z] of [E2END + 1] cells, read with stdpp's
      lookup and written with stdpp's insert.  CV numbers and EEPROM
      indices are [nat].
    - A binary literal of the source ([0b01010101]) is written in
      hexadecimal ([0x55]).
    - [millis()] is an input: every function that reads the clock takes the
      reading as its argument [now]. *)

From Stdlib Require Import ZArith Lia Bool List.
From stdpp Require Import base list.
Import ListNotations.

Local Open Scope Z_scope.

(** ** Arduino integer types *)

Definition uint8 (z : Z) : Z := z mod 256.
Definition uint16 (z : Z) : Z := z mod 65536.
Definition uint32 (z : Z) : Z := z mod 4294967296.

(** [bitRead(value, bit)] *)
Definition bitRead (value : Z) (bit : Z) : bool := Z.testbit value bit.

(** ** core_CvValues.h: CV names *)

Definition max_cvs : nat := 63.

Definition myAddrL : nat := 1.
Definition version : nat := 7.
Definition VID : nat := 8.
Definition myAddrH : nat := 9.
Definition myRSAddr : nat := 10.
Definition CmdStation : nat := 19.
Definition Search : nat := 23.
Definition Restart : nat := 25.
Definition DccQuality : nat := 26.
Definition DecType : nat := 27.
Definition RailCom : nat := 28.
Definition Config : nat := 29.
Definition VID_2 : nat := 30.
Definition Shortcut : nat := 33.
Definition PrintDetails : nat := 34.

(** ** The EEPROM (Arduino [EEPROM] object)

    The cells [0 .. E2END] are the list.  What a read beyond [E2END]
    returns depends on the chip; it is the parameter [beyond].  Writes
    beyond [E2END] are never issued by the code modelled here (the CV
    programming code guards them, [setDefaults] and the address capture use
    constant indices up to [max_cvs]); stdpp's insert leaves the list as it
    is there. *)

Section Eeprom.

Variable beyond : nat -> Z.

Definition EEPROM_read (ee : list Z) (idx : nat) : Z :=
  match ee !! idx with
  | Some v => v
  | None => beyond idx
  end.

(** [EEPROM.update]: writes the cell only when the value differs. *)
Definition EEPROM_update (ee : list Z) (idx : nat) (val : Z) : list Z :=
  if EEPROM_read ee idx =? val then ee else <[idx := val]> ee.

(** ** core_CvValues.cpp: class CvValues

    The object has one member, the [defaults] array of [max_cvs + 1]
    bytes; the CVs themselves live in the EEPROM. *)

(** The global [cvValues] object is zero-initialised. *)
Definition defaults0 : list Z := replicate (S max_cvs) 0.

Definition init (decoderType softwareVersion : Z) (defaults : list Z) : list Z :=
  let defaults := foldl (fun d i => <[i := 0]> d) defaults (seq 1 max_cvs) in
  let defaults := <[0%nat := 0x55]> defaults in
  let defaults := <[DecType := decoderType]> defaults in
  let defaults := <[version := softwareVersion]> defaults in
  let defaults := <[VID := 0x0D]> defaults in
  let defaults := <[VID_2 := 0x0D]> defaults in
  let defaults := <[myAddrL := 0x01]> defaults in
  let defaults := <[myAddrH := 0x80]> defaults in
  let defaults := <[Config := 0x80]> defaults in
  let defaults := <[RailCom := 0]> defaults in
  let defaults := <[CmdStation := 1]> defaults in
  let defaults := <[DccQuality := 0]> defaults in
  let defaults := <[Shortcut := 64]> defaults in
  let defaults := <[PrintDetails := 0]> defaults in
  defaults.

Definition notInitialised (ee : list Z) : bool :=
  negb (EEPROM_read ee 0 =? 0x55).

Definition addressNotSet (ee : list Z) : bool :=
  EEPROM_read ee myAddrH =? 0x80.

Definition setDefaults (defaults : list Z) (ee : list Z) : list Z :=
  foldl (fun e i => EEPROM_update e i (defaults !!! i)) ee (seq 0 (S max_cvs)).

Definition read (ee : list Z) (number : nat) : Z := EEPROM_read ee number.

Definition write (ee : list Z) (number : nat) (value : Z) : list Z :=
  EEPROM_update ee number value.

Definition storedAddress (ee : list Z) : Z :=
  let cv29 := read ee Config in
  let accDecoder := bitRead cv29 7 in
  let outputAddr := bitRead cv29 6 in
  let longLocoAddr := bitRead cv29 5 in
  if accDecoder then
    let address :=
      if outputAddr then
        let cv1 := read ee myAddrL in
        let cv9 := Z.land (read ee myAddrH) 0x07 in
        uint16 (Z.shiftl cv9 8 + cv1)
      else
        let cv1 := Z.land (read ee myAddrL) 0x3F in
        let cv9 := Z.land (read ee myAddrH) 0x07 in
        uint16 (Z.shiftl cv9 6 + cv1 - 1) in
    if 128 <=? read ee myAddrH then 65535 else address
  else
    let address :=
      if longLocoAddr then
        let cv17 := Z.land (read ee 17) 0x3F in
        let cv18 := read ee 18 in
        uint16 (Z.shiftl cv17 8 + cv18)
      else
        let cv1 := Z.land (read ee myAddrL) 0x7F in
        cv1 in
    if address =? 0 then 3 else address.

End Eeprom.

(** ** MyDefaults.h / MyDefaults.cpp *)

Definition DECODER : Z := 1.
Definition MY_CV1 : Z := 1 + DECODER * 4.
Definition MY_CV9 : Z := 2.

Definition myDefaults_init (defaults : list Z) : list Z :=
  let defaults := <[myAddrL := MY_CV1]> defaults in
  let defaults := <[myAddrH := MY_CV9]> defaults in
  defaults.

(** ** core_LEDs.h / core_LEDs.cpp: BasicLed and FlashLed

    [pin_level] is the level last written to the LED pin with
    [digitalWrite]; [LED_ON] is the member [_LED_ON]. *)

Definition alwaysOn : Z := 1.
Definition alwaysOff : Z := 2.
Definition singleFlashSerie : Z := 3.
Definition neverStopFlashing : Z := 4.

Record FlashLed := mkFlashLed {
  LED_ON : bool;
  pin_level : bool;
  flashOntime : Z;
  flashOfftime : Z;
  flashPause : Z;
  flashCount : Z;
  mode : Z;
  last_flash_time : Z;
  flash_number_now : Z;
  flash_time_remain : Z
}.

Definition ledIsOn (l : FlashLed) : bool := eqb (pin_level l) (LED_ON l).

Definition BasicLed_turn_on (l : FlashLed) : FlashLed :=
  mkFlashLed (LED_ON l) (LED_ON l) (flashOntime l) (flashOfftime l)
    (flashPause l) (flashCount l) (mode l) (last_flash_time l)
    (flash_number_now l) (flash_time_remain l).

Definition BasicLed_turn_off (l : FlashLed) : FlashLed :=
  mkFlashLed (LED_ON l) (negb (LED_ON l)) (flashOntime l) (flashOfftime l)
    (flashPause l) (flashCount l) (mode l) (last_flash_time l)
    (flash_number_now l) (flash_time_remain l).

Definition set_mode (m : Z) (l : FlashLed) : FlashLed :=
  mkFlashLed (LED_ON l) (pin_level l) (flashOntime l) (flashOfftime l)
    (flashPause l) (flashCount l) m (last_flash_time l)
    (flash_number_now l) (flash_time_remain l).

Definition turn_off (l : FlashLed) : FlashLed :=
  BasicLed_turn_off (set_mode alwaysOff l).

Definition turn_on (l : FlashLed) : FlashLed :=
  BasicLed_turn_on (set_mode alwaysOn l).

Definition flash (now : Z) (l : FlashLed) : FlashLed :=
  BasicLed_turn_on
    (mkFlashLed (LED_ON l) (pin_level l) (flashOntime l) (flashOfftime l)
       (flashPause l) (flashCount l) (mode l)
       now                 (* last_flash_time = millis() *)
       1                   (* flash_number_now = 1 *)
       (flashOntime l)).   (* flash_time_remain = flashOntime *)

Definition set_pattern (ontime offtime count pause m : Z) (l : FlashLed) : FlashLed :=
  mkFlashLed (LED_ON l) (pin_level l) ontime offtime pause count m
    (last_flash_time l) (flash_number_now l) (flash_time_remain l).

Definition flashSlow (now : Z) (l : FlashLed) : FlashLed :=
  flash now (set_pattern 5 5 1 5 neverStopFlashing l).

Definition flashFast (now : Z) (l : FlashLed) : FlashLed :=
  flash now (set_pattern 1 2 1 2 neverStopFlashing l).

(** *** FlashLed::update and the DccLed patterns *)

Definition set_last_flash_time (t : Z) (l : FlashLed) : FlashLed :=
  mkFlashLed (LED_ON l) (pin_level l) (flashOntime l) (flashOfftime l)
    (flashPause l) (flashCount l) (mode l) t
    (flash_number_now l) (flash_time_remain l).

Definition set_flash_number_now (n : Z) (l : FlashLed) : FlashLed :=
  mkFlashLed (LED_ON l) (pin_level l) (flashOntime l) (flashOfftime l)
    (flashPause l) (flashCount l) (mode l) (last_flash_time l)
    n (flash_time_remain l).

Definition set_flash_time_remain (r : Z) (l : FlashLed) : FlashLed :=
  mkFlashLed (LED_ON l) (pin_level l) (flashOntime l) (flashOfftime l)
    (flashPause l) (flashCount l) (mode l) (last_flash_time l)
    (flash_number_now l) r.

(** [BasicLed::toggle]: its calls of [turn_off] and [turn_on] are those of
    [BasicLed] (the methods are not virtual), so the mode is not touched. *)
Definition toggle (l : FlashLed) : FlashLed :=
  if ledIsOn l then BasicLed_turn_off l else BasicLed_turn_on l.

(** [FlashLed::update]; [--flash_time_remain] and [flash_number_now++] are
    computed on [uint8_t]. *)
Definition update (now : Z) (l : FlashLed) : FlashLed :=
  if mode l =? alwaysOn then l
  else if mode l =? alwaysOff then l
  else
    let current_time := now in
    if 100 <=? uint32 (current_time - last_flash_time l) then
      let l := set_last_flash_time current_time l in
      let l := set_flash_time_remain (uint8 (flash_time_remain l - 1)) l in
      if flash_time_remain l =? 0 then
        let l :=
          if ledIsOn l then
            if negb (flash_number_now l =? flashCount l) then
              set_flash_time_remain (flashOfftime l) l
            else if mode l =? neverStopFlashing then
              set_flash_number_now 0 (set_flash_time_remain (flashPause l) l)
            else set_mode alwaysOff l
          else
            set_flash_number_now (uint8 (flash_number_now l + 1))
              (set_flash_time_remain (flashOntime l) l) in
        toggle l
      else l
    else l.

Definition set_ontime_count (ontime count m : Z) (l : FlashLed) : FlashLed :=
  mkFlashLed (LED_ON l) (pin_level l) ontime (flashOfftime l)
    (flashPause l) count m (last_flash_time l)
    (flash_number_now l) (flash_time_remain l).

(** [DccLed::start_up]: the pause is left as it is. *)
Definition start_up (now : Z) (l : FlashLed) : FlashLed :=
  flash now (set_pattern 2 2 2 (flashPause l) singleFlashSerie l).

(** [DccLed::activity] and [DccLed::feedback]: off time and pause are left
    as they are. *)
Definition activity (now : Z) (l : FlashLed) : FlashLed :=
  flash now (set_ontime_count 2 1 singleFlashSerie l).

Definition feedback (now : Z) (l : FlashLed) : FlashLed :=
  flash now (set_ontime_count 5 1 singleFlashSerie l).

(** A run of [update()] calls, one clock reading per call. *)
Definition updates (clock : list Z) (l : FlashLed) : FlashLed :=
  foldl (fun l now => update now l) l clock.

(** Every reading of [clock] is at least 100 ms after the one before it,
    the first one after [last]: every call of the run does a step. *)
Fixpoint qualifying (last : Z) (clock : list Z) : Prop :=
  match clock with
  | [] => True
  | now :: rest => 100 <= uint32 (now - last) /\ qualifying now rest
  end.

(** The LED at the end of an on phase (the call at reading [t] switches it
    off) and at the end of an off phase or pause (the call at [t] switches
    it on), as [FlashLed::update] leaves it. *)
Definition after_on (t : Z) (l : FlashLed) : FlashLed :=
  BasicLed_turn_off
    (if flash_number_now l =? flashCount l then
       if mode l =? neverStopFlashing then
         set_flash_number_now 0
           (set_flash_time_remain (flashPause l) (set_last_flash_time t l))
       else
         set_mode alwaysOff
           (set_flash_time_remain 0 (set_last_flash_time t l))
     else set_flash_time_remain (flashOfftime l) (set_last_flash_time t l)).

Definition after_off (t : Z) (l : FlashLed) : FlashLed :=
  BasicLed_turn_on
    (set_flash_number_now (uint8 (flash_number_now l + 1))
       (set_flash_time_remain (flashOntime l) (set_last_flash_time t l))).

(** A pattern is running: the mode is neither [alwaysOn] nor [alwaysOff]. *)
Definition flashing (l : FlashLed) : Prop :=
  mode l = singleFlashSerie \/ mode l = neverStopFlashing.

(** The LED at the start of the on phase of flash number [k], switched on
    at reading [t] (what [flash] leaves for [k = 1]), at the start of the
    off phase after flash [k], and at the start of the pause after the last
    flash of a series. *)
Definition on_start (t k : Z) (l : FlashLed) : FlashLed :=
  BasicLed_turn_on
    (set_flash_number_now k
       (set_flash_time_remain (flashOntime l) (set_last_flash_time t l))).

Definition off_start (t k : Z) (l : FlashLed) : FlashLed :=
  BasicLed_turn_off
    (set_flash_number_now k
       (set_flash_time_remain (flashOfftime l) (set_last_flash_time t l))).

Definition pause_start (t : Z) (l : FlashLed) : FlashLed :=
  BasicLed_turn_off
    (set_flash_number_now 0
       (set_flash_time_remain (flashPause l) (set_last_flash_time t l))).

(** The LED when a single series has ended. *)
Definition series_done (t : Z) (l : FlashLed) : FlashLed :=
  BasicLed_turn_off
    (set_mode alwaysOff
       (set_flash_number_now (flashCount l)
          (set_flash_time_remain 0 (set_last_flash_time t l)))).

(** Whether the LED is lit after each call of a run of [update()] calls. *)
Fixpoint lit_trace (clock : list Z) (l : FlashLed) : list bool :=
  match clock with
  | [] => []
  | now :: rest =>
      let l' := update now l in
      ledIsOn l' :: lit_trace rest l'
  end.

(** The calls of one flash that is followed by another: the LED is lit
    for [a] steps (up to the call that switches it off) and dark for [b]
    steps (up to the call that switches it on again). *)
Definition cycle_trace (a b : Z) : list bool :=
  replicate (Z.to_nat a - 1) true ++ [false] ++
  replicate (Z.to_nat b - 1) false ++ [true].

(** The calls of the last flash of a series: lit for [a] steps. *)
Definition last_flash_trace (a : Z) : list bool :=
  replicate (Z.to_nat a - 1) true ++ [false].

Fixpoint repeat_trace (n : nat) (c : list bool) : list bool :=
  match n with
  | O => []
  | S n => c ++ repeat_trace n c
  end.

(** ** AP_DCC_library: the objects [dcc], [cvCmd] and [accCmd]

    The library is not part of the decoder's sources; the decoder uses the
    fields and methods below. *)

(** [Dcc::CmdType_t]: the four command types the decoder core tests for,
    and [OtherCmd] for every other one. *)
Inductive CmdType := SmCmd | MyPomCmd | MyAccessoryCmd | AnyAccessoryCmd | OtherCmd.

Definition CmdType_eqb (a b : CmdType) : bool :=
  match a, b with
  | SmCmd, SmCmd | MyPomCmd, MyPomCmd | MyAccessoryCmd, MyAccessoryCmd
  | AnyAccessoryCmd, AnyAccessoryCmd | OtherCmd, OtherCmd => true
  | _, _ => false
  end.

Inductive operation_t := verifyByte | writeByte | bitManipulation.

(** The CV access command [cvCmd]. *)
Record CvAccess := mkCvAccess {
  number : nat;            (* unsigned int *)
  operation : operation_t;
  value : Z;               (* uint8_t *)
  writecmd : bool;         (* bit manipulation: write or verify *)
  bitvalue : bool;         (* bit manipulation: the polarity *)
  bitposition : Z          (* bit manipulation: 0..7 *)
}.

(** Modelled from the spec: [CvAccess::writeBit] of AP_DCC_library is
    missing; "a write applies a single-bit set/clear to the current stored
    byte". *)
Definition writeBit (c : CvAccess) (data : Z) : Z :=
  if bitvalue c then Z.setbit data (bitposition c)
  else Z.clearbit data (bitposition c).

(** Modelled from the spec: [CvAccess::verifyBit] of AP_DCC_library is
    missing; "a verify checks whether the specified bit already matches the
    requested polarity". *)
Definition verifyBit (c : CvAccess) (data : Z) : bool :=
  eqb (Z.testbit data (bitposition c)) (bitvalue c).

(** The accessory command [accCmd]: the two address fields. *)
Record Accessory := mkAccessory {
  outputAddress : Z;       (* unsigned int *)
  decoderAddress : Z       (* unsigned int *)
}.

(** ** The decoder as a state machine

    The global objects the CV programming code works on: the EEPROM, the
    [defaults] array of [cvValues], the programming LED, the member
    [LedShouldFlash] of [cvProgramming], and, as a log in the order of
    occurrence, the signals that leave the core: the DCC acknowledge
    ([dcc.sendAck()]) and the restart ([processor.reboot()]). *)

Inductive Event := Ack | Reboot.

Record Decoder := mkDecoder {
  eeprom : list Z;
  defaults : list Z;
  programmingLed : FlashLed;
  LedShouldFlash : bool;
  events : list Event
}.

(** [Processor::reboot] jumps to address 0 and does not return: a
    computation either runs on with a result, or the decoder has
    restarted and the rest of the function is not executed. *)
Inductive Outcome (A : Type) :=
| Running (a : A) (d : Decoder)
| Restarted (d : Decoder).
Arguments Running {A} a d.
Arguments Restarted {A} d.

Definition Prog (A : Type) : Type := Decoder -> Outcome A.

Definition ret {A} (a : A) : Prog A := fun d => Running a d.

Definition bind {A B} (c : Prog A) (k : A -> Prog B) : Prog B :=
  fun d =>
    match c d with
    | Running a d' => k a d'
    | Restarted d' => Restarted d'
    end.

Notation "x <- c ;; k" := (bind c (fun x => k))
  (at level 100, c at next level, right associativity).
Notation "c ;; k" := (bind c (fun _ => k))
  (at level 100, right associativity).

Definition when (b : bool) (c : Prog unit) : Prog unit :=
  if b then c else ret tt.

(** The final state of a computation, however it ended. *)
Definition final {A} (o : Outcome A) : Decoder :=
  match o with
  | Running _ d => d
  | Restarted d => d
  end.

Definition restarted {A} (o : Outcome A) : bool :=
  match o with
  | Running _ _ => false
  | Restarted _ => true
  end.

Definition dcc_sendAck : Prog unit :=
  fun d => Running tt
    (mkDecoder (eeprom d) (defaults d) (programmingLed d) (LedShouldFlash d)
       (events d ++ [Ack])).

Definition reboot : Prog unit :=
  fun d => Restarted
    (mkDecoder (eeprom d) (defaults d) (programmingLed d) (LedShouldFlash d)
       (events d ++ [Reboot])).

Definition set_LedShouldFlash (b : bool) : Prog unit :=
  fun d => Running tt
    (mkDecoder (eeprom d) (defaults d) (programmingLed d) b (events d)).

Definition with_led (f : FlashLed -> FlashLed) : Prog unit :=
  fun d => Running tt
    (mkDecoder (eeprom d) (defaults d) (f (programmingLed d))
       (LedShouldFlash d) (events d)).

Definition with_eeprom (f : list Z -> list Z) : Prog unit :=
  fun d => Running tt
    (mkDecoder (f (eeprom d)) (defaults d) (programmingLed d)
       (LedShouldFlash d) (events d)).

Section Core.

(** [E2END], the last EEPROM address, comes from the headers of the chip;
    [beyond] is what the chip returns for a read past it. *)
Variable E2END : nat.
Variable beyond : nat -> Z.

Definition cvValues_read (n : nat) : Prog Z :=
  fun d => Running (read beyond (eeprom d) n) d.

Definition cvValues_write (n : nat) (v : Z) : Prog unit :=
  with_eeprom (fun ee => write beyond ee n v).

Definition cvValues_setDefaults : Prog unit :=
  fun d => with_eeprom (setDefaults beyond (defaults d)) d.

(** *** core_Functions.cpp: CvProgramming::processMessage *)

Definition processMessage (now : Z) (cmdType : CmdType) (cvCmd : CvAccess)
  : Prog unit :=
  let RecCvNumber := number cvCmd in
  let RecCvData := value cvCmd in
  CurrentEEPROMValue <- cvValues_read RecCvNumber ;;
  let SM := CmdType_eqb cmdType SmCmd in
  let PoM := CmdType_eqb cmdType MyPomCmd in
  if (RecCvNumber <=? E2END)%nat then
    match operation cvCmd with
    | verifyByte =>
        when SM (when (CurrentEEPROMValue =? RecCvData) dcc_sendAck) ;;
        when PoM (ret tt)
    | writeByte =>
        if (RecCvNumber =? version)%nat then
          ret tt
        else if (RecCvNumber =? VID)%nat then
          when (RecCvData =? 0x0D)
            (cvValues_setDefaults ;;
             when SM dcc_sendAck ;;
             reboot)
        else if (RecCvNumber =? Restart)%nat then
          when (negb (RecCvData =? 0)) reboot
        else if (RecCvNumber =? Search)%nat then
          if negb (RecCvData =? 0) then
            set_LedShouldFlash true ;;
            with_led (flashFast now)
          else
            set_LedShouldFlash false ;;
            with_led turn_off
        else
          cvValues_write RecCvNumber RecCvData ;;
          when SM dcc_sendAck
    | bitManipulation =>
        if writecmd cvCmd then
          let NewEEPROMValue := writeBit cvCmd CurrentEEPROMValue in
          cvValues_write RecCvNumber NewEEPROMValue ;;
          when SM dcc_sendAck
        else
          when (verifyBit cvCmd CurrentEEPROMValue)
            (when SM dcc_sendAck)
    end
  else ret tt.

(** *** core_Functions.cpp: ProgButton::addressProgramming

    The body of [if (dcc.input())] in the capture loop: what the loop does
    with a DCC command of type [cmdType] whose accessory fields are
    [accCmd].  ([delay(100)] changes nothing in the state.) *)

Definition addressProgramming_input (cmdType : CmdType) (accCmd : Accessory)
  : Prog unit :=
  cv29 <- cvValues_read Config ;;
  let accDecoder := bitRead cv29 7 in
  let outputAddr := bitRead cv29 6 in
  when (accDecoder &&
        (CmdType_eqb cmdType MyAccessoryCmd || CmdType_eqb cmdType AnyAccessoryCmd))
    ((if outputAddr then
        let my_cv1 := uint8 (Z.land (outputAddress accCmd) 0xFF) in
        let my_cv9 := uint8 (Z.land (Z.shiftr (outputAddress accCmd) 8) 0x07) in
        cvValues_write myAddrL my_cv1 ;;
        cvValues_write myAddrH my_cv9
      else
        let tempAddress := uint16 (decoderAddress accCmd + 1) in
        let my_cv1 := uint8 (Z.land tempAddress 0x3F) in
        let my_cv9 := uint8 (Z.land (Z.shiftr tempAddress 6) 0x07) in
        cvValues_write myAddrL my_cv1 ;;
        cvValues_write myAddrH my_cv9) ;;
     reboot).

End Core.

(** *** core_Functions.cpp: CvProgramming::initPoM

    The value of [pomAddress], the loco address handed to
    [locoCmd.setMyAddress]; the sum is computed on [unsigned int] and
    stored in a [uint16_t]. *)

Definition offset4Pom : Z := 7000.

Definition initPoM (beyond : nat -> Z) (ee : list Z) : Z :=
  if addressNotSet beyond ee then uint16 (offset4Pom - 1)
  else uint16 (offset4Pom + storedAddress beyond ee).

(** *** The bytes of the address capture

    Names for the values [my_cv1] and [my_cv9] of [addressProgramming]. *)

(** The two CVs the capture writes for a decoder address [a] ... *)
Definition decoder_cv1 (a : Z) : Z := uint8 (Z.land (uint16 (a + 1)) 0x3F).
Definition decoder_cv9 (a : Z) : Z :=
  uint8 (Z.land (Z.shiftr (uint16 (a + 1)) 6) 0x07).

(** ... and for an output address [a]. *)
Definition output_cv1 (a : Z) : Z := uint8 (Z.land a 0xFF).
Definition output_cv9 (a : Z) : Z := uint8 (Z.land (Z.shiftr a 8) 0x07).

(** The decoder after a capture that wrote [cv1] and [cv9] and restarted. *)
Definition captured (cv1 cv9 : Z) (d : Decoder) : Decoder :=
  mkDecoder (<[myAddrH := cv9]> (<[myAddrL := cv1]> (eeprom d)))
    (defaults d) (programmingLed d) (LedShouldFlash d)
    (events d ++ [Reboot]).

(** ** core_Timer.h / core_Timer.cpp: class DccTimer

    Every call of [millis()] has a reading of its own, an argument of the
    method that makes the call; [getElapsed] and [getRemain] call it
    twice, in [running()] and in the value they return.  The difference
    [millis() - startTime] is computed on [unsigned long]. *)

Record DccTimer := mkDccTimer {
  runTime : Z;
  notExpired : bool;
  startTime : Z
}.

(** The member initialisers of the class. *)
Definition DccTimer_new : DccTimer := mkDccTimer 0 false 0.

Definition setTime (now : Z) (value : Z) (t : DccTimer) : DccTimer :=
  if 0 <? value then mkDccTimer value true now
  else mkDccTimer value false (startTime t).

Definition running (now : Z) (t : DccTimer) : bool :=
  if notExpired t then
    if uint32 (now - startTime t) <? runTime t then true else false
  else false.

Definition expired (now : Z) (t : DccTimer) : bool * DccTimer :=
  if notExpired t then
    if runTime t <=? uint32 (now - startTime t) then
      (true, mkDccTimer (runTime t) false (startTime t))
    else (false, t)
  else (false, t).

Definition start (now : Z) (t : DccTimer) : DccTimer :=
  mkDccTimer (runTime t) true now.

Definition restart (now : Z) (t : DccTimer) : DccTimer := start now t.

Definition stop (t : DccTimer) : DccTimer :=
  mkDccTimer (runTime t) false (startTime t).

Definition getRuntime (t : DccTimer) : Z := runTime t.

(** [now1] is the reading of [running()], [now2] the one of the
    [return] expression. *)
Definition getElapsed (now1 now2 : Z) (t : DccTimer) : Z :=
  if running now1 t then uint32 (uint32 (now2 - startTime t) + 1)
  else runTime t.

Definition getRemain (now1 now2 : Z) (t : DccTimer) : Z :=
  if running now1 t then uint32 (runTime t - uint32 (now2 - startTime t))
  else 0.

(** "The condition to determine expiry is: millis() - startTime >= runTime"
    (core_Timer.cpp): the armed duration of [t] has elapsed at the clock
    reading [now]. *)
Definition elapsed (t : DccTimer) (now : Z) : bool :=
  runTime t <=? uint32 (now - startTime t).

(** ** core_ProgButton.h / core_ProgButton.cpp: class DccButton

    [read] and [attach] sample the input port: [port] is the value of
    [*m_portRegister] at the call, [now] the value of [millis()]. *)

Record DccButton := mkDccButton {
  m_pin : Z;
  m_dbTime : Z;
  m_puEnable : bool;
  m_invert : bool;
  m_state : bool;
  m_lastState : bool;
  m_changed : bool;
  m_time : Z;
  m_lastChange : Z;
  m_bit : Z
}.

(** The port register masked with [m_bit], converted to [bool], then inverted when
    [m_invert] is set. *)
Definition pinVal (invert : bool) (bit port : Z) : bool :=
  let v := negb (Z.land port bit =? 0) in
  if invert then negb v else v.

(** [bit] is [digitalPinToBitMask(pin)], given by the board. *)
Definition attach (pin dbTime : Z) (puEnable invert : bool) (bit : Z)
    (now port : Z) : DccButton :=
  let state := pinVal invert bit port in
  mkDccButton pin dbTime puEnable invert state state false now now bit.

Definition DccButton_read (now port : Z) (b : DccButton) : DccButton :=
  let ms := now in
  let pv := pinVal (m_invert b) (m_bit b) port in
  if uint32 (ms - m_lastChange b) <? m_dbTime b then
    mkDccButton (m_pin b) (m_dbTime b) (m_puEnable b) (m_invert b)
      (m_state b) (m_lastState b) false ms (m_lastChange b) (m_bit b)
  else
    let lastState := m_state b in
    let state := pv in
    let changed := negb (eqb state lastState) in
    mkDccButton (m_pin b) (m_dbTime b) (m_puEnable b) (m_invert b)
      state lastState changed ms
      (if changed then ms else m_lastChange b) (m_bit b).

Definition isPressed (b : DccButton) : bool := m_state b.
Definition isReleased (b : DccButton) : bool := negb (m_state b).
Definition wasPressed (b : DccButton) : bool := m_state b && m_changed b.
Definition wasReleased (b : DccButton) : bool := negb (m_state b) && m_changed b.

Definition pressedFor (ms : Z) (b : DccButton) : bool :=
  m_state b && (ms <=? uint32 (m_time b - m_lastChange b)).

Definition releasedFor (ms : Z) (b : DccButton) : bool :=
  negb (m_state b) && (ms <=? uint32 (m_time b - m_lastChange b)).

Definition lastChange (b : DccButton) : Z := m_lastChange b.

(** The states of a button after each of a sequence of [read()] calls, one
    (clock, port) sample per call. *)
Fixpoint read_all (samples : list (Z * Z)) (b : DccButton) : list DccButton :=
  match samples with
  | [] => []
  | (now, port) :: rest =>
      let b' := DccButton_read now port b in
      b' :: read_all rest b'
  end.

(** The results of a sequence of [expired()] calls, one clock reading per
    call, and the timer they leave. *)
Fixpoint expired_all (clock : list Z) (t : DccTimer) : list bool * DccTimer :=
  match clock with
  | [] => ([], t)
  | now :: rest =>
      let '(r, t') := expired now t in
      let '(rs, t'') := expired_all rest t' in
      (r :: rs, t'')
  end.

(** *** class ToggleButton

    [toggle_changed] is the member [m_changed] of [ToggleButton], which
    hides the one of [DccButton]; [wasPressed()] reads the latter. *)

Record ToggleButton := mkToggleButton {
  button : DccButton;
  m_toggleState : bool;
  toggle_changed : bool
}.

Definition ToggleButton_attach (pin dbTime : Z) (puEnable invert : bool)
    (initialState : bool) (bit : Z) (now port : Z) (tb : ToggleButton)
  : ToggleButton :=
  mkToggleButton (attach pin dbTime puEnable invert bit now port)
    initialState (toggle_changed tb).

Definition ToggleButton_read (now port : Z) (tb : ToggleButton) : ToggleButton :=
  let b := DccButton_read now port (button tb) in
  if wasPressed b then mkToggleButton b (negb (m_toggleState tb)) true
  else mkToggleButton b (m_toggleState tb) false.

Definition changed (tb : ToggleButton) : bool := toggle_changed tb.
Definition toggleState (tb : ToggleButton) : bool := m_toggleState tb.

(** The toggle button after a sequence of [read()] calls. *)
Definition ToggleButton_reads (samples : list (Z * Z)) (tb : ToggleButton)
  : ToggleButton :=
  foldl (fun tb s => ToggleButton_read (fst s) (snd s) tb) tb samples.

(** ** core_Functions.cpp: the programming button and the start-up

    The objects of the file as one state: the decoder state of the CV
    programming, the on-board button, the member [TLast] of
    [decoderHardware], and the values handed to the DCC library at
    start-up ([locoCmd.setMyAddress], [accCmd.setMyAddress],
    [accCmd.myMaster]). *)

Record Board := mkBoard {
  decoder : Decoder;
  onBoardButton : DccButton;
  TLast : Z;
  pomAddress : Z;
  accAddress : Z;
  myMaster : Z
}.

Definition set_decoder (d : Decoder) (b : Board) : Board :=
  mkBoard d (onBoardButton b) (TLast b) (pomAddress b) (accAddress b) (myMaster b).

Definition set_onBoardButton (btn : DccButton) (b : Board) : Board :=
  mkBoard (decoder b) btn (TLast b) (pomAddress b) (accAddress b) (myMaster b).

Definition set_TLast (t : Z) (b : Board) : Board :=
  mkBoard (decoder b) (onBoardButton b) t (pomAddress b) (accAddress b) (myMaster b).

Definition set_programmingLed (l : FlashLed) (d : Decoder) : Decoder :=
  mkDecoder (eeprom d) (defaults d) l (LedShouldFlash d) (events d).

(** How a function of the board ends: it returns, it restarts the decoder
    ([processor.reboot()] does not return), or, for the capture loop of
    [addressProgramming], it is still polling when the inputs given to the
    model are used up. *)
Inductive Run :=
| Returned (b : Board)
| Rebooted (b : Board)
| Polling (b : Board).

Definition board_of (r : Run) : Board :=
  match r with
  | Returned b | Rebooted b | Polling b => b
  end.

(** Runs a computation of the decoder state on the board. *)
Definition on_decoder (c : Prog unit) (b : Board) : Run :=
  match c (decoder b) with
  | Running _ d => Returned (set_decoder d b)
  | Restarted d => Rebooted (set_decoder d b)
  end.

(** What one pass of the capture loop reads: the clock of [update()], the
    result of [dcc.input()] (no command, or the type of the command and
    the accessory fields), clock and port of [onBoardButton.read()]. *)
Record LoopInput := mkLoopInput {
  led_now : Z;
  dcc_input : option (CmdType * Accessory);
  btn_now : Z;
  btn_port : Z
}.

Section Board.

Variable beyond : nat -> Z.

(** A command that is no accessory command, or any command on a decoder
    that is no accessory decoder, is passed over by the capture. *)
Definition passed_over (ee : list Z) (input : option (CmdType * Accessory)) : Prop :=
  match input with
  | None => True
  | Some (cmdType, _) =>
      (cmdType <> MyAccessoryCmd /\ cmdType <> AnyAccessoryCmd) \/
      Z.testbit (read beyond ee Config) 7 = false
  end.

(** [FlashLed::attach] with [BasicLed::attach]: [_LED_ON] is [HIGH] unless
    inverted; [pinMode] leaves the level of the pin. *)
Definition FlashLed_attach (invert : bool) (now : Z) (l : FlashLed) : FlashLed :=
  mkFlashLed (negb invert) (pin_level l) (flashOntime l) (flashOfftime l)
    (flashPause l) (flashCount l) (mode l) now
    (flash_number_now l) (flash_time_remain l).

(** [ProgButton::attach]: [attach] with the default arguments (25 ms,
    pull-up, inverted), [delay(500)], then a first [read()]. *)
Definition ProgButton_attach (pin bit : Z) (now port now' port' : Z) : DccButton :=
  DccButton_read now' port' (attach pin 25 true true bit now port).

(** The [do ... while (!onBoardButton.isPressed())] loop of
    [ProgButton::addressProgramming], one [LoopInput] per pass. *)
Fixpoint capture_loop (passes : list LoopInput) (b : Board) : Run :=
  match passes with
  | [] => Polling b
  | i :: rest =>
      let b := set_decoder
                 (set_programmingLed
                    (update (led_now i) (programmingLed (decoder b))) (decoder b)) b in
      let after_input :=
        match dcc_input i with
        | Some (cmdType, accCmd) =>
            on_decoder (addressProgramming_input beyond cmdType accCmd) b
        | None => Returned b
        end in
      match after_input with
      | Returned b =>
          let b := set_onBoardButton
                     (DccButton_read (btn_now i) (btn_port i) (onBoardButton b)) b in
          if isPressed (onBoardButton b) then Returned b
          else capture_loop rest b
      | ended => ended
      end
  end.

(** [ProgButton::addressProgramming]: [flash_now] is the clock of
    [flashFast()], [last] clock and port of the [read()] after the loop. *)
Definition addressProgramming (flash_now : Z) (passes : list LoopInput)
    (last : Z * Z) (b : Board) : Run :=
  let b := set_decoder
             (set_programmingLed
                (flashFast flash_now (programmingLed (decoder b))) (decoder b)) b in
  match capture_loop passes b with
  | Returned b =>
      let b := set_decoder
                 (set_programmingLed
                    (turn_off (programmingLed (decoder b))) (decoder b)) b in
      Returned (set_onBoardButton
                  (DccButton_read (fst last) (snd last) (onBoardButton b)) b)
  | ended => ended
  end.

(** [ProgButton::checkForNewDecoderAddress]: [now] and [port] are read by
    the first [read()]; the other inputs are those of
    [addressProgramming]. *)
Definition checkForNewDecoderAddress (now port : Z)
    (flash_now : Z) (passes : list LoopInput) (last : Z * Z) (b : Board) : Run :=
  let b := set_onBoardButton (DccButton_read now port (onBoardButton b)) b in
  let b :=
    if isPressed (onBoardButton b) then
      set_decoder
        (set_programmingLed (turn_on (programmingLed (decoder b))) (decoder b)) b
    else b in
  let after_hold :=
    if pressedFor 5000 (onBoardButton b) then
      on_decoder (with_led turn_off ;; cvValues_setDefaults beyond ;; reboot) b
    else Returned b in
  match after_hold with
  | Returned b =>
      if wasReleased (onBoardButton b)
      then addressProgramming flash_now passes last b
      else Returned b
  | ended => ended
  end.

(** [CommonDecHwFunctions::update]: [TNow] is its own reading of the
    clock, [led_time] the one of [programmingLed.update()]. *)
Definition CommonDecHwFunctions_update (TNow : Z) (now port : Z)
    (flash_now : Z) (passes : list LoopInput) (last : Z * Z) (led_time : Z)
    (b : Board) : Run :=
  if 20 <=? uint32 (TNow - TLast b) then
    let b := set_TLast TNow b in
    match checkForNewDecoderAddress now port flash_now passes last b with
    | Returned b =>
        Returned
          (set_decoder
             (set_programmingLed
                (update led_time (programmingLed (decoder b))) (decoder b)) b)
    | ended => ended
    end
  else Returned b.

(** The clock and port readings of [CommonDecHwFunctions::init], in the
    order of the calls: [programmingLed.attach], [progButton.attach]
    (attach, then the read after the delay), the two LED patterns, and
    [TLast = millis()].  [button_pin] and [button_bit] are [buttonPin] and its bit mask. *)
Record InitInput := mkInitInput {
  led_attach_now : Z;
  button_pin : Z;
  button_bit : Z;
  btn_attach_now : Z;
  btn_attach_port : Z;
  btn_read_now : Z;
  btn_read_port : Z;
  start_up_now : Z;
  pattern_now : Z;
  last_now : Z
}.

Definition CommonDecHwFunctions_init (i : InitInput) (b : Board) : Board :=
  let d := decoder b in
  let ee :=
    if notInitialised beyond (eeprom d)
    then setDefaults beyond (defaults d) (eeprom d)
    else eeprom d in
  let led := FlashLed_attach false (led_attach_now i) (programmingLed d) in
  let btn := ProgButton_attach (button_pin i) (button_bit i) (btn_attach_now i)
               (btn_attach_port i) (btn_read_now i) (btn_read_port i) in
  let pom := initPoM beyond ee in
  let led := start_up (start_up_now i) led in
  let led :=
    if addressNotSet beyond ee then flashSlow (pattern_now i) led
    else start_up (pattern_now i) led in
  mkBoard (mkDecoder ee (defaults d) led (LedShouldFlash d) (events d))
    btn (last_now i) pom (storedAddress beyond ee) (read beyond ee CmdStation).

End Board.

(** ** Sample decoders

    Concrete states on which the functions above can be run. *)

(** [TMC16ChannelSwitchDecoder] of core_CvValues.h. *)
Definition TMC16ChannelSwitchDecoder : Z := 0xC2.

(** An erased EEPROM of [size] cells. *)
Definition erased (size : nat) : list Z := replicate size 0xFF.

(** A decoder after its first start on a chip with [size] EEPROM cells:
    [init], then [setDefaults] on the erased EEPROM; LED off, nothing
    logged. *)
Definition fresh_decoder (size : nat) : Decoder :=
  let defaults := init TMC16ChannelSwitchDecoder 10 defaults0 in
  mkDecoder (setDefaults (fun _ => 0xFF) defaults (erased size)) defaults
    (mkFlashLed true false 0 0 0 0 alwaysOff 0 0 0) false [].

(** A decoder whose EEPROM is still erased: [init] has run, [setDefaults]
    has not. *)
Definition blank_decoder (size : nat) : Decoder :=
  mkDecoder (erased size) (init TMC16ChannelSwitchDecoder 10 defaults0)
    (mkFlashLed true false 0 0 0 0 alwaysOff 0 0 0) false [].

(** A decoder configured for output addressing (Config bits 7 and 6). *)
Definition output_decoder (size : nat) : Decoder :=
  mkDecoder (<[Config := 0xC0]> (eeprom (fresh_decoder size)))
    (defaults (fresh_decoder size))
    (mkFlashLed true false 0 0 0 0 alwaysOff 0 0 0) false [].

(** The programming LED after [attach]: lit by a high level, the other
    members as the zero-initialised global object has them. *)
Definition led0 : FlashLed := mkFlashLed true false 0 0 0 0 0 0 0 0.

(** A decoder after a factory reset with the address of MyDefaults.h:
    [init], [myDefaults.init], then [setDefaults]. *)
Definition addressed_decoder (size : nat) : Decoder :=
  let defaults := myDefaults_init (init TMC16ChannelSwitchDecoder 10 defaults0) in
  mkDecoder (setDefaults (fun _ => 0xFF) defaults (erased size)) defaults
    led0 false [].

(** The on-board button after [attach] at time 0 with the input high
    (released; bit 6 of its port, active low), and the same button after
    a press accepted at 100 ms. *)
Definition released_button : DccButton := attach 0 25 true true 0x40 0 0x40.
Definition pressed_button : DccButton := DccButton_read 100 0x00 released_button.

(** A board with the address of MyDefaults.h and the button released or
    pressed. *)
Definition released_board : Board :=
  mkBoard (addressed_decoder 512) released_button 0 0 0 0.
Definition pressed_board : Board :=
  mkBoard (addressed_decoder 512) pressed_button 0 0 0 0.

(** Two passes of the capture loop without a command to capture, 100 ms
    apart, the button released. *)
Definition idle_passes : list LoopInput :=
  [mkLoopInput 110 None 110 0x40;
   mkLoopInput 210 (Some (OtherCmd, mkAccessory 0 0)) 210 0x40].

(** * Properties *)

(** ** The EEPROM *)

Section EepromFacts.

Variable beyond : nat -> Z.

Lemma EEPROM_read_Some (ee : list Z) (i : nat) (v : Z) :
  ee !! i = Some v -> EEPROM_read beyond ee i = v.
Proof. intros H. unfold EEPROM_read. now rewrite H. Qed.

(** [EEPROM.update] leaves the same store as an unconditional write. *)
Lemma EEPROM_update_insert (ee : list Z) (i : nat) (v : Z) :
  EEPROM_update beyond ee i v = <[i := v]> ee.
Proof.
  unfold EEPROM_update, EEPROM_read.
  destruct (ee !! i) as [w|] eqn:E.
  - destruct (Z.eqb_spec w v) as [->|]; [|reflexivity].
    symmetry. now apply list_insert_id.
  - apply lookup_ge_None in E.
    rewrite list_insert_ge by exact E. now destruct (_ =? _).
Qed.

Lemma EEPROM_update_length (ee : list Z) (i : nat) (v : Z) :
  length (EEPROM_update beyond ee i v) = length ee.
Proof. rewrite EEPROM_update_insert. apply length_insert. Qed.

(** A loop [for (i = a; i < a + n; i++) cell[i] = f(i)] over a list. *)
Lemma foldl_insert_seq_lookup (f : nat -> Z) (n a : nat) (l : list Z) (i : nat) :
  foldl (fun e j => <[j := f j]> e) l (seq a n) !! i =
    if decide ((a <= i < a + n)%nat /\ (i < length l)%nat)
    then Some (f i) else l !! i.
Proof.
  revert a l. induction n as [|n IH]; intros a l; simpl.
  - destruct (decide _) as [[? ?]|]; [lia|reflexivity].
  - rewrite IH, length_insert.
    destruct (decide (a = i)) as [->|Hne].
    + destruct (decide ((S i <= i < S i + n)%nat /\ _)) as [[? ?]|_]; [lia|].
      destruct (decide ((i <= i < i + S n)%nat /\ _)) as [[_ Hl]|Hn].
      * now apply list_lookup_insert_eq.
      * now rewrite list_insert_ge by lia.
    + rewrite list_lookup_insert_ne by exact Hne.
      destruct (decide ((S a <= i < S a + n)%nat /\ _)) as [[? ?]|Hn1];
        destruct (decide ((a <= i < a + S n)%nat /\ _)) as [[? ?]|Hn2];
        try reflexivity; exfalso; lia.
Qed.

Lemma foldl_insert_seq_length (f : nat -> Z) (n a : nat) (l : list Z) :
  length (foldl (fun e j => <[j := f j]> e) l (seq a n)) = length l.
Proof.
  revert a l. induction n as [|n IH]; intros a l; simpl; [reflexivity|].
  now rewrite IH, length_insert.
Qed.

Lemma setDefaults_insert (d ee : list Z) :
  setDefaults beyond d ee =
    foldl (fun e j => <[j := d !!! j]> e) ee (seq 0 (S max_cvs)).
Proof.
  unfold setDefaults. generalize (seq 0 (S max_cvs)). intros js.
  revert ee. induction js as [|j js IH]; intros ee; simpl; [reflexivity|].
  now rewrite EEPROM_update_insert, IH.
Qed.

Lemma setDefaults_length (d ee : list Z) :
  length (setDefaults beyond d ee) = length ee.
Proof. rewrite setDefaults_insert. apply foldl_insert_seq_length. Qed.

(** After [setDefaults] every CV up to [max_cvs] holds its default. *)
Lemma setDefaults_lookup (d ee : list Z) (i : nat) :
  (i <= max_cvs)%nat -> (i < length ee)%nat ->
  setDefaults beyond d ee !! i = Some (d !!! i).
Proof.
  intros Hi Hl. rewrite setDefaults_insert, foldl_insert_seq_lookup.
  destruct (decide _) as [_|Hn]; [reflexivity|]. exfalso. apply Hn. lia.
Qed.

(** ... and the cells behind the CVs are left alone. *)
Lemma setDefaults_lookup_above (d ee : list Z) (i : nat) :
  (max_cvs < i)%nat -> setDefaults beyond d ee !! i = ee !! i.
Proof.
  intros Hi. rewrite setDefaults_insert, foldl_insert_seq_lookup.
  destruct (decide _) as [[? ?]|_]; [lia|reflexivity].
Qed.

(** X3: a second [setDefaults()] right after the first leaves the EEPROM
    as the first one left it. *)
Lemma setDefaults_idempotent (d ee : list Z) :
  setDefaults beyond d (setDefaults beyond d ee) = setDefaults beyond d ee.
Proof.
  apply list_eq. intros i.
  rewrite (setDefaults_insert d (setDefaults beyond d ee)).
  rewrite foldl_insert_seq_lookup, setDefaults_length.
  rewrite setDefaults_insert, foldl_insert_seq_lookup.
  now destruct (decide _).
Qed.

(** [init] leaves a table of the same size whose marker is [0x55]. *)
Lemma init_length (dt ver : Z) (d : list Z) :
  length (init dt ver d) = length d.
Proof.
  unfold init. rewrite !length_insert. apply foldl_insert_seq_length with (f := fun _ => 0).
Qed.

Lemma init_marker (dt ver : Z) (d : list Z) :
  (0 < length d)%nat -> init dt ver d !!! 0%nat = 0x55.
Proof.
  intros Hd. unfold init.
  rewrite !list_lookup_total_insert_ne by discriminate.
  apply list_lookup_total_insert_eq.
  rewrite (foldl_insert_seq_length (fun _ => 0)). exact Hd.
Qed.

Lemma myDefaults_init_marker (d : list Z) :
  myDefaults_init d !!! 0%nat = d !!! 0%nat.
Proof.
  unfold myDefaults_init.
  now rewrite !list_lookup_total_insert_ne by discriminate.
Qed.

End EepromFacts.

(** ** CvValues: the marker, the address sentinel, the stored address *)


Section CvValuesFacts.

Variable beyond : nat -> Z.

(** C1 as the code has it: [addressNotSet()] is true if and only if the
    high address CV (CV9) holds exactly [0x80]; a byte whose top bit is
    set together with another bit is not taken for the sentinel. *)
Theorem C1_addressNotSet_iff_0x80 (ee : list Z) (v : Z) :
  ee !! myAddrH = Some v ->
  (addressNotSet beyond ee = true <-> v = 0x80).
Proof.
  intros Hv. unfold addressNotSet.
  rewrite (EEPROM_read_Some beyond ee myAddrH v Hv).
  apply Z.eqb_eq.
Qed.

(** C4: for an accessory decoder (Config bit 7 set) whose high address CV
    is 128 or more, [storedAddress()] is 65535, the largest [unsigned
    int], which is neither a decoder address (0..511) nor an output
    address (1..2047). *)
Theorem C4_storedAddress_unassigned (ee : list Z) (cv29 cv9 : Z) :
  ee !! Config = Some cv29 ->
  ee !! myAddrH = Some cv9 ->
  Z.testbit cv29 7 = true ->
  128 <= cv9 ->
  storedAddress beyond ee = 65535 /\
  storedAddress beyond ee = 2 ^ 16 - 1 /\
  ~ (0 <= storedAddress beyond ee <= 2047).
Proof.
  intros H29 H9 Hacc Hhigh.
  assert (E : storedAddress beyond ee = 65535).
  { unfold storedAddress, read, bitRead.
    rewrite (EEPROM_read_Some beyond ee Config cv29 H29).
    rewrite (EEPROM_read_Some beyond ee myAddrH cv9 H9).
    rewrite Hacc.
    destruct (Z.leb_spec 128 cv9) as [_|Hlt]; [reflexivity|lia]. }
  rewrite E. split; [reflexivity|]. split; [reflexivity|lia].
Qed.

(** C5: [notInitialised()] is true if and only if the byte at EEPROM
    index 0 differs from [0x55]; and after [setDefaults()], with the
    defaults that [init] built (and [myDefaults.init] adjusted or not),
    [notInitialised()] is false, whatever the EEPROM held before. *)
Theorem C5_notInitialised_marker (ee defaults : list Z) (m dt ver : Z) :
  ee !! 0%nat = Some m ->
  length defaults = S max_cvs ->
  (notInitialised beyond ee = true <-> m <> 0x55) /\
  notInitialised beyond (setDefaults beyond (init dt ver defaults) ee) = false /\
  notInitialised beyond
    (setDefaults beyond (myDefaults_init (init dt ver defaults)) ee) = false.
Proof.
  intros Hm Hd.
  assert (Hl : (0 < length ee)%nat) by (apply lookup_lt_Some in Hm; exact Hm).
  assert (Hi : init dt ver defaults !!! 0%nat = 0x55).
  { apply init_marker. rewrite Hd. lia. }
  split; [|split].
  - unfold notInitialised.
    rewrite (EEPROM_read_Some beyond ee 0 m Hm).
    rewrite negb_true_iff. apply Z.eqb_neq.
  - unfold notInitialised.
    rewrite (EEPROM_read_Some beyond _ 0 (init dt ver defaults !!! 0%nat)).
    + now rewrite Hi.
    + apply setDefaults_lookup; [unfold max_cvs; lia|exact Hl].
  - unfold notInitialised.
    rewrite (EEPROM_read_Some beyond _ 0
               (myDefaults_init (init dt ver defaults) !!! 0%nat)).
    + now rewrite myDefaults_init_marker, Hi.
    + apply setDefaults_lookup; [unfold max_cvs; lia|exact Hl].
Qed.

End CvValuesFacts.

(** C1, counterexample to "true iff the top bit is set": with [0x81] in
    CV9 the top bit is set (the value is at least 128), and
    [addressNotSet()] is false. *)
Lemma C1_top_bit_counterexample :
  let ee := <[myAddrH := 0x81]> (erased 512) in
  ee !! myAddrH = Some 0x81 /\
  Z.testbit 0x81 7 = true /\
  128 <= 0x81 /\
  addressNotSet (fun _ => 0xFF) ee = false.
Proof. vm_compute. repeat split; discriminate. Qed.

Lemma C1_addressNotSet_witness :
  addressNotSet (fun _ => 0xFF) (eeprom (fresh_decoder 512)) = true <-> 0x80 = 0x80.
Proof.
  apply (C1_addressNotSet_iff_0x80 (fun _ => 0xFF) (eeprom (fresh_decoder 512)) 0x80).
  reflexivity.
Defined.

Lemma C4_storedAddress_witness :
  storedAddress (fun _ => 0xFF) (eeprom (fresh_decoder 512)) = 65535 /\
  storedAddress (fun _ => 0xFF) (eeprom (fresh_decoder 512)) = 2 ^ 16 - 1 /\
  ~ (0 <= storedAddress (fun _ => 0xFF) (eeprom (fresh_decoder 512)) <= 2047).
Proof.
  apply (C4_storedAddress_unassigned (fun _ => 0xFF)
           (eeprom (fresh_decoder 512)) 0x80 0x80);
    [reflexivity | reflexivity | reflexivity | lia].
Defined.

Lemma C5_notInitialised_witness :
  (notInitialised (fun _ => 0xFF) (erased 512) = true <-> 0xFF <> 0x55) /\
  notInitialised (fun _ => 0xFF)
    (setDefaults (fun _ => 0xFF) (init 0xC2 10 defaults0) (erased 512)) = false /\
  notInitialised (fun _ => 0xFF)
    (setDefaults (fun _ => 0xFF) (myDefaults_init (init 0xC2 10 defaults0))
       (erased 512)) = false.
Proof.
  apply (C5_notInitialised_marker (fun _ => 0xFF) (erased 512) defaults0 0xFF 0xC2 10);
    reflexivity.
Defined.

(** ** Address capture and the stored address *)

Section CaptureFacts.

Variable beyond : nat -> Z.

Lemma land_63 (x : Z) : Z.land x 0x3F = x mod 64.
Proof. change 0x3F with (Z.ones 6). now rewrite Z.land_ones by lia. Qed.

Lemma land_7 (x : Z) : Z.land x 0x07 = x mod 8.
Proof. change 0x07 with (Z.ones 3). now rewrite Z.land_ones by lia. Qed.

Lemma land_255 (x : Z) : Z.land x 0xFF = x mod 256.
Proof. change 0xFF with (Z.ones 8). now rewrite Z.land_ones by lia. Qed.



Lemma addressProgramming_input_accessory
    (cmdType : CmdType) (accCmd : Accessory) (d : Decoder) (cv29 : Z) :
  eeprom d !! Config = Some cv29 ->
  Z.testbit cv29 7 = true ->
  cmdType = MyAccessoryCmd \/ cmdType = AnyAccessoryCmd ->
  addressProgramming_input beyond cmdType accCmd d =
    Restarted
      (if Z.testbit cv29 6
       then captured (output_cv1 (outputAddress accCmd))
              (output_cv9 (outputAddress accCmd)) d
       else captured (decoder_cv1 (decoderAddress accCmd))
              (decoder_cv9 (decoderAddress accCmd)) d).
Proof.
  intros H29 Hacc Hcmd.
  unfold addressProgramming_input, bind, cvValues_read, read, bitRead.
  rewrite (EEPROM_read_Some beyond _ _ _ H29), Hacc.
  assert (Hc : (CmdType_eqb cmdType MyAccessoryCmd
                || CmdType_eqb cmdType AnyAccessoryCmd) = true)
    by (destruct Hcmd as [-> | ->]; reflexivity).
  rewrite Hc. cbn [andb when].
  destruct (Z.testbit cv29 6);
    unfold cvValues_write, with_eeprom, write, reboot, captured; cbn;
    now rewrite !EEPROM_update_insert.
Qed.

Lemma storedAddress_captured (ee : list Z) (cv29 cv1 cv9 : Z) :
  ee !! Config = Some cv29 ->
  Z.testbit cv29 7 = true ->
  storedAddress beyond (<[myAddrH := cv9]> (<[myAddrL := cv1]> ee)) =
    if 128 <=? cv9 then 65535
    else if Z.testbit cv29 6
         then uint16 (Z.shiftl (Z.land cv9 0x07) 8 + cv1)
         else uint16 (Z.shiftl (Z.land cv9 0x07) 6 + Z.land cv1 0x3F - 1).
Proof.
  intros H29 Hacc.
  assert (Hl : (Config < length ee)%nat) by (now apply lookup_lt_Some in H29).
  unfold Config in Hl.
  unfold storedAddress, read, bitRead.
  rewrite (EEPROM_read_Some beyond _ Config cv29)
    by (now rewrite !list_lookup_insert_ne by discriminate).
  rewrite (EEPROM_read_Some beyond _ myAddrH cv9)
    by (apply list_lookup_insert_eq; rewrite length_insert; unfold myAddrH; lia).
  rewrite (EEPROM_read_Some beyond _ myAddrL cv1).
  2:{ rewrite list_lookup_insert_ne by discriminate.
      apply list_lookup_insert_eq. unfold myAddrL. lia. }
  rewrite Hacc. now destruct (Z.testbit cv29 6), (128 <=? cv9).
Qed.

Lemma decoder_roundtrip_arith (a : Z) :
  0 <= a <= 510 ->
  (128 <=? decoder_cv9 a) = false /\
  uint16 (Z.shiftl (Z.land (decoder_cv9 a) 0x07) 6
          + Z.land (decoder_cv1 a) 0x3F - 1) = a.
Proof.
  intros Ha. unfold decoder_cv1, decoder_cv9, uint16, uint8.
  rewrite !land_63, !land_7, Z.shiftr_div_pow2, Z.shiftl_mul_pow2 by lia.
  change (2 ^ 6) with 64.
  rewrite (Z.mod_small (a + 1) 65536) by lia.
  split.
  - apply Z.leb_gt. Z.div_mod_to_equations. lia.
  - Z.div_mod_to_equations. lia.
Qed.

Lemma output_roundtrip_arith (a : Z) :
  0 <= a <= 2047 ->
  (128 <=? output_cv9 a) = false /\
  uint16 (Z.shiftl (Z.land (output_cv9 a) 0x07) 8 + output_cv1 a) = a.
Proof.
  intros Ha. unfold output_cv1, output_cv9, uint16, uint8.
  rewrite !land_255, !land_7, Z.shiftr_div_pow2, Z.shiftl_mul_pow2 by lia.
  change (2 ^ 8) with 256.
  split.
  - apply Z.leb_gt. Z.div_mod_to_equations. lia.
  - Z.div_mod_to_equations. lia.
Qed.

(** X1, decoder addressing: for an accessory decoder with decoder
    addressing, the capture of a decoder address in 0..510 writes CV1 and
    CV9 such that [storedAddress()] returns that address again. *)
Lemma decoder_address_roundtrip
    (cmdType : CmdType) (d : Decoder) (cv29 a other : Z) :
  eeprom d !! Config = Some cv29 ->
  Z.testbit cv29 7 = true ->
  Z.testbit cv29 6 = false ->
  cmdType = MyAccessoryCmd \/ cmdType = AnyAccessoryCmd ->
  0 <= a <= 510 ->
  storedAddress beyond
    (eeprom (final (addressProgramming_input beyond cmdType
                      (mkAccessory other a) d))) = a.
Proof.
  intros H29 Hacc Hout Hcmd Ha.
  rewrite (addressProgramming_input_accessory _ _ _ cv29 H29 Hacc Hcmd), Hout.
  cbn [final captured eeprom decoderAddress].
  rewrite (storedAddress_captured _ cv29 _ _ H29 Hacc), Hout.
  destruct (decoder_roundtrip_arith a Ha) as [-> ->]. reflexivity.
Qed.

(** X2, output addressing: for an accessory decoder with output
    addressing, the capture of an output address in 1..2047 writes CV1 and
    CV9 such that [storedAddress()] returns that address again. *)
Lemma output_address_roundtrip
    (cmdType : CmdType) (d : Decoder) (cv29 a other : Z) :
  eeprom d !! Config = Some cv29 ->
  Z.testbit cv29 7 = true ->
  Z.testbit cv29 6 = true ->
  cmdType = MyAccessoryCmd \/ cmdType = AnyAccessoryCmd ->
  1 <= a <= 2047 ->
  storedAddress beyond
    (eeprom (final (addressProgramming_input beyond cmdType
                      (mkAccessory a other) d))) = a.
Proof.
  intros H29 Hacc Hout Hcmd Ha.
  rewrite (addressProgramming_input_accessory _ _ _ cv29 H29 Hacc Hcmd), Hout.
  cbn [final captured eeprom outputAddress].
  rewrite (storedAddress_captured _ cv29 _ _ H29 Hacc), Hout.
  destruct (output_roundtrip_arith a) as [-> ->]; [lia|reflexivity].
Qed.

End CaptureFacts.

Lemma decoder_address_roundtrip_witness :
  storedAddress (fun _ => 0xFF)
    (eeprom (final (addressProgramming_input (fun _ => 0xFF) MyAccessoryCmd
                      (mkAccessory 0 510) (fresh_decoder 512)))) = 510.
Proof.
  apply (decoder_address_roundtrip (fun _ => 0xFF) MyAccessoryCmd
           (fresh_decoder 512) 0x80 510 0);
    [reflexivity | reflexivity | reflexivity | left; reflexivity | lia].
Defined.

Lemma output_address_roundtrip_witness :
  storedAddress (fun _ => 0xFF)
    (eeprom (final (addressProgramming_input (fun _ => 0xFF) AnyAccessoryCmd
                      (mkAccessory 2047 0) (output_decoder 512)))) = 2047.
Proof.
  apply (output_address_roundtrip (fun _ => 0xFF) AnyAccessoryCmd
           (output_decoder 512) 0xC0 2047 0);
    [reflexivity | reflexivity | reflexivity | right; reflexivity | lia].
Defined.

(** C2, decoder addressing at its upper end: the capture of decoder
    address 511 on a decoder fresh from the factory reset stores
    [(511 + 1) & 0x3F = 0] in CV1 and [((511 + 1) >> 6) & 0x07 = 0] in CV9,
    and the stored address derived from them is 65535, not 511. *)
Theorem C2_decoder_address_511_not_recovered :
  let d := final (addressProgramming_input (fun _ => 0xFF) MyAccessoryCmd
                    (mkAccessory 0 511) (fresh_decoder 512)) in
  eeprom (fresh_decoder 512) !! Config = Some 0x80 /\
  eeprom d !! myAddrL = Some 0 /\
  eeprom d !! myAddrH = Some 0 /\
  events d = [Reboot] /\
  storedAddress (fun _ => 0xFF) (eeprom d) = 65535 /\
  storedAddress (fun _ => 0xFF) (eeprom d) <> 511.
Proof. vm_compute. repeat split; discriminate. Qed.

(** ** CvProgramming::processMessage *)

Section ProcessMessageFacts.

Variable E2END : nat.
Variable beyond : nat -> Z.

(** C3 as the code has it: the guard of [processMessage] is
    [RecCvNumber <= E2END], the whole EEPROM.  A command whose CV number
    is beyond [E2END] leaves the decoder exactly as it was: no write, no
    acknowledge, no restart, no change of the LED, whatever the type of
    the command (Service Mode, Programming on Main or any other). *)
Theorem C3_beyond_E2END_ignored
    (now : Z) (cmdType : CmdType) (cvCmd : CvAccess) (d : Decoder) :
  (E2END < number cvCmd)%nat ->
  processMessage E2END beyond now cmdType cvCmd d = Running tt d.
Proof.
  intros Hn. unfold processMessage, bind, cvValues_read.
  apply Nat.leb_gt in Hn. now rewrite Hn.
Qed.

(** C6: a Service Mode [writeByte] of [0x0D] to CV8 (VID) puts the
    default of every CV, the marker included, into the EEPROM, whatever
    it held before, sends the acknowledge and then restarts the decoder:
    the log grows by [Ack] followed by [Reboot], and nothing is executed
    after the restart. *)
Theorem C6_reset_by_VID
    (now : Z) (wc bv : bool) (bp : Z) (d : Decoder) :
  (max_cvs <= E2END)%nat ->
  length (eeprom d) = S E2END ->
  let o := processMessage E2END beyond now SmCmd
             (mkCvAccess VID writeByte 0x0D wc bv bp) d in
  restarted o = true /\
  events (final o) = events d ++ [Ack; Reboot] /\
  (forall i : nat, (i <= max_cvs)%nat ->
     eeprom (final o) !! i = Some (defaults d !!! i)) /\
  eeprom (final o) = setDefaults beyond (defaults d) (eeprom d) /\
  defaults (final o) = defaults d /\
  programmingLed (final o) = programmingLed d.
Proof.
  intros HE Hl o. subst o.
  unfold processMessage, bind, cvValues_read. cbn [number operation value].
  assert (Hv : (VID <=? E2END)%nat = true)
    by (apply Nat.leb_le; unfold VID, max_cvs in *; lia).
  rewrite Hv.
  cbn [Nat.eqb VID version Z.eqb Pos.eqb when CmdType_eqb bind
       cvValues_setDefaults with_eeprom dcc_sendAck reboot restarted final
       eeprom defaults programmingLed LedShouldFlash events].
  rewrite <- app_assoc. cbn [app].
  repeat split.
  intros i Hi. apply setDefaults_lookup; [exact Hi|].
  rewrite Hl. unfold max_cvs in *. lia.
Qed.

(** C9: a bit manipulation write to a CV within the EEPROM stores the
    byte with the bit set or cleared, for every type of command (Service
    Mode, Programming on Main, any other) and every CV number, the
    read-only CV7 and the trigger CVs 8, 23 and 25 included: the defaults
    are not restored, the LED and [LedShouldFlash] keep their state, the
    decoder is not restarted, and the acknowledge is sent in Service Mode
    only. *)
Theorem C9_bit_write_unconditional
    (now : Z) (cmdType : CmdType) (cvCmd : CvAccess) (d : Decoder) (old : Z) :
  operation cvCmd = bitManipulation ->
  writecmd cvCmd = true ->
  (number cvCmd <= E2END)%nat ->
  eeprom d !! number cvCmd = Some old ->
  processMessage E2END beyond now cmdType cvCmd d =
    Running tt
      (mkDecoder (<[number cvCmd := writeBit cvCmd old]> (eeprom d))
         (defaults d) (programmingLed d) (LedShouldFlash d)
         (events d ++ (if CmdType_eqb cmdType SmCmd then [Ack] else []))).
Proof.
  intros Hop Hw Hn Hold.
  unfold processMessage, bind, cvValues_read, read.
  apply Nat.leb_le in Hn. rewrite Hn, Hop, Hw.
  rewrite (EEPROM_read_Some beyond _ _ _ Hold).
  unfold cvValues_write, with_eeprom, write. rewrite EEPROM_update_insert.
  destruct (CmdType_eqb cmdType SmCmd); cbn; [reflexivity|].
  now rewrite app_nil_r.
Qed.

End ProcessMessageFacts.

(** C3, counterexample to "a CV number outside [0 .. max_cvs] is
    ignored": on a chip with 512 EEPROM cells ([E2END = 511]) a [writeByte]
    to CV 64 is carried out; in Service Mode it is also acknowledged. *)
Lemma C3_cv64_counterexample :
  let cmd := mkCvAccess 64 writeByte 0x2A false false 0 in
  let sm := final (processMessage 511 (fun _ => 0xFF) 0 SmCmd cmd (fresh_decoder 512)) in
  let pom := final (processMessage 511 (fun _ => 0xFF) 0 MyPomCmd cmd (fresh_decoder 512)) in
  (max_cvs < number cmd)%nat /\
  eeprom (fresh_decoder 512) !! 64%nat = Some 0xFF /\
  eeprom sm !! 64%nat = Some 0x2A /\
  events sm = [Ack] /\
  eeprom pom !! 64%nat = Some 0x2A.
Proof. vm_compute. repeat split. lia. Qed.

Lemma C6_reset_witness :
  let d := blank_decoder 512 in
  let o := processMessage 511 (fun _ => 0xFF) 0 SmCmd
             (mkCvAccess VID writeByte 0x0D false false 0) d in
  restarted o = true /\
  events (final o) = events d ++ [Ack; Reboot] /\
  (forall i : nat, (i <= max_cvs)%nat ->
     eeprom (final o) !! i = Some (defaults d !!! i)) /\
  eeprom (final o) = setDefaults (fun _ => 0xFF) (defaults d) (eeprom d) /\
  defaults (final o) = defaults d /\
  programmingLed (final o) = programmingLed d.
Proof.
  apply (C6_reset_by_VID 511 (fun _ => 0xFF) 0 false false 0 (blank_decoder 512));
    [unfold max_cvs; lia | reflexivity].
Defined.

Lemma C9_bit_write_witness :
  let cmd := mkCvAccess version bitManipulation 0 true true 0 in
  let d := fresh_decoder 512 in
  processMessage 511 (fun _ => 0xFF) 0 MyPomCmd cmd d =
    Running tt
      (mkDecoder (<[version := writeBit cmd 10]> (eeprom d))
         (defaults d) (programmingLed d) (LedShouldFlash d)
         (events d ++ [])).
Proof.
  apply (C9_bit_write_unconditional 511 (fun _ => 0xFF) 0 MyPomCmd
           (mkCvAccess version bitManipulation 0 true true 0)
           (fresh_decoder 512) 10);
    [reflexivity | reflexivity | unfold version; simpl; lia | reflexivity].
Defined.

Lemma C3_beyond_E2END_witness :
  processMessage 511 (fun _ => 0xFF) 0 SmCmd
    (mkCvAccess 512 writeByte 0x2A false false 0) (fresh_decoder 512) =
  Running tt (fresh_decoder 512).
Proof.
  apply (C3_beyond_E2END_ignored 511 (fun _ => 0xFF) 0 SmCmd
           (mkCvAccess 512 writeByte 0x2A false false 0) (fresh_decoder 512)).
  simpl. lia.
Defined.

(** ** DccTimer *)


Lemma uint32_nonneg (z : Z) : 0 <= uint32 z.
Proof. unfold uint32. apply Z.mod_pos_bound. lia. Qed.

(** As long as fewer than 2^32 ms pass between arming and polling, the
    wrapped difference of the two clock readings is the time that passed. *)
Lemma elapsed_real_time (t : DccTimer) (T0 T : Z) :
  startTime t = uint32 T0 ->
  0 <= T - T0 < 4294967296 ->
  elapsed t (uint32 T) = (runTime t <=? T - T0).
Proof.
  intros Hs HT. unfold elapsed. rewrite Hs. unfold uint32.
  rewrite <- Zminus_mod. now rewrite Z.mod_small by lia.
Qed.

Lemma expired_all_length (clock : list Z) (t : DccTimer) :
  length (fst (expired_all clock t)) = length clock.
Proof.
  revert t. induction clock as [|now rest IH]; intros t; simpl; [reflexivity|].
  destruct (expired now t) as [r t'].
  specialize (IH t'). destruct (expired_all rest t') as [rs t''].
  simpl in *. now rewrite IH.
Qed.

(** A timer that is not armed answers [false] to every call and stays as
    it is. *)
Lemma expired_all_disarmed (clock : list Z) (t : DccTimer) :
  notExpired t = false ->
  expired_all clock t = (replicate (length clock) false, t).
Proof.
  intros Hn. induction clock as [|now rest IH]; simpl; [reflexivity|].
  unfold expired. rewrite Hn, IH. reflexivity.
Qed.

(** An armed timer answers [true] at the first reading at which its
    duration has elapsed, and at no other. *)
Lemma expired_all_armed (clock : list Z) (t : DccTimer) (k : nat) (now : Z) :
  notExpired t = true ->
  clock !! k = Some now ->
  fst (expired_all clock t) !! k =
    Some (elapsed t now && forallb (fun n => negb (elapsed t n)) (take k clock)).
Proof.
  intros Ha. revert k. induction clock as [|c rest IH]; intros k Hk.
  - discriminate.
  - simpl. unfold expired. rewrite Ha. fold (elapsed t c).
    destruct (elapsed t c) eqn:Ec.
    + rewrite expired_all_disarmed by reflexivity. simpl.
      destruct k as [|k]; simpl in *.
      * injection Hk as <-. now rewrite Ec.
      * rewrite Ec. simpl. rewrite andb_false_r.
        apply lookup_replicate_2. now apply lookup_lt_Some in Hk.
    + destruct (expired_all rest t) as [rs t''] eqn:Er.
      destruct k as [|k]; simpl in *.
      * injection Hk as <-. now rewrite Ec.
      * rewrite Ec. simpl. exact (IH k Hk).
Qed.

Lemma forallb_pointwise {A : Type} (f g : A -> bool) (l : list A) :
  (forall x : A, f x = g x) -> forallb f l = forallb g l.
Proof.
  intros Hfg. induction l as [|x l IH]; [reflexivity|].
  simpl. now rewrite Hfg, IH.
Qed.

(** C7: a timer armed at the clock reading [now0], by [setTime] with a
    positive duration [value], or by [start] or [restart] with the stored
    duration, answers [true] to exactly that [expired()] call which is the
    first one made at a reading [now] with [duration <= now - now0] (the
    difference on 32 bits): calls before it and calls after it get
    [false], so at most one call of a run gets [true]; and after [stop()]
    every call gets [false].  The timer may have been armed, expired or
    stopped before: [t0] is arbitrary. *)
Theorem C7_expired_fires_once
    (t0 : DccTimer) (now0 value duration : Z) (t : DccTimer) (clock : list Z) :
  (0 < value /\ t = setTime now0 value t0 /\ duration = value) \/
  ((t = start now0 t0 \/ t = restart now0 t0) /\ duration = runTime t0) ->
  let due := fun now : Z => duration <=? uint32 (now - now0) in
  let answers := fst (expired_all clock t) in
  length answers = length clock /\
  (forall now : Z, elapsed t now = due now) /\
  (forall (k : nat) (now : Z), clock !! k = Some now ->
     answers !! k =
       Some (due now && forallb (fun n => negb (due n)) (take k clock))) /\
  (forall k : nat,
     answers !! k = Some true <->
     exists now : Z,
       clock !! k = Some now /\ duration <= uint32 (now - now0) /\
       forall (j : nat) (n : Z),
         (j < k)%nat -> clock !! j = Some n -> uint32 (n - now0) < duration) /\
  (forall j k : nat,
     answers !! j = Some true -> answers !! k = Some true -> j = k) /\
  (forall (polled later : list Z),
     fst (expired_all later (stop (snd (expired_all polled t)))) =
       replicate (length later) false).
Proof.
  intros Harm due answers.
  assert (Ha : notExpired t = true).
  { destruct Harm as [(Hv & -> & _) | [[-> | ->] _]]; [|reflexivity|reflexivity].
    unfold setTime. apply Z.ltb_lt in Hv. now rewrite Hv. }
  assert (Hdue : forall now : Z, elapsed t now = due now).
  { intros now. subst due. unfold elapsed.
    destruct Harm as [(Hv & -> & ->) | [[-> | ->] ->]]; [|reflexivity|reflexivity].
    unfold setTime. apply Z.ltb_lt in Hv. now rewrite Hv. }
  assert (Hat : forall (k : nat) (now : Z), clock !! k = Some now ->
     answers !! k =
       Some (due now && forallb (fun n => negb (due n)) (take k clock))).
  { intros k now Hk. unfold answers.
    rewrite (expired_all_armed clock t k now Ha Hk), Hdue.
    do 2 f_equal. apply forallb_pointwise. intros n. now rewrite Hdue. }
  assert (Hfirst : forall k : nat,
     answers !! k = Some true <->
     exists now : Z,
       clock !! k = Some now /\ duration <= uint32 (now - now0) /\
       forall (j : nat) (n : Z),
         (j < k)%nat -> clock !! j = Some n -> uint32 (n - now0) < duration).
  { intros k. split.
    - intros Hk.
      assert (Hlk : (k < length clock)%nat)
        by (rewrite <- (expired_all_length clock t); now apply lookup_lt_Some in Hk).
      destruct (lookup_lt_is_Some_2 clock k Hlk) as [now Hnow].
      rewrite (Hat k now Hnow) in Hk. injection Hk as Hk.
      apply andb_true_iff in Hk as [Hd Hall].
      exists now. split; [exact Hnow|]. split; [now apply Z.leb_le|].
      intros j n Hj Hn. rewrite forallb_forall in Hall.
      assert (Hin : In n (take k clock)).
      { apply list_elem_of_In, list_elem_of_lookup. exists j.
        rewrite lookup_take_lt by exact Hj. exact Hn. }
      specialize (Hall n Hin). apply negb_true_iff in Hall.
      now apply Z.leb_gt in Hall.
    - intros (now & Hnow & Hd & Hbefore).
      rewrite (Hat k now Hnow). f_equal. apply andb_true_iff. split.
      + now apply Z.leb_le.
      + apply forallb_forall. intros n Hin.
        apply list_elem_of_In, list_elem_of_lookup in Hin as [j Hj].
        apply lookup_take_Some in Hj as [Hj Hlt].
        apply negb_true_iff, Z.leb_gt. exact (Hbefore j n Hlt Hj). }
  split; [apply expired_all_length|]. split; [exact Hdue|].
  split; [exact Hat|]. split; [exact Hfirst|]. split.
  - (* two true answers are the same call *)
    assert (Hlt : forall j k : nat, (j < k)%nat ->
              answers !! j = Some true -> answers !! k = Some true -> False).
    { intros j k Hjk Hj Hk.
      apply Hfirst in Hj as (nj & Hnj & Hdj & _).
      apply Hfirst in Hk as (nk & _ & _ & Hbefore).
      specialize (Hbefore j nj Hjk Hnj). lia. }
    intros j k Hj Hk.
    destruct (Nat.lt_trichotomy j k) as [Hlt'|[Heq|Hgt]]; [|exact Heq|].
    + exfalso. exact (Hlt j k Hlt' Hj Hk).
    + exfalso. exact (Hlt k j Hgt Hk Hj).
  - intros polled later. now rewrite expired_all_disarmed by reflexivity.
Qed.

(** C10: [setTime(0)] leaves the timer disarmed; [start()] and [restart()]
    set the flag whatever the stored duration is, so after them the timer
    is armed with duration 0: the next [expired()] answers [true], at any
    clock reading, and the calls after it answer [false]. *)
Theorem C10_start_after_setTime_zero
    (t0 : DccTimer) (now0 now1 now2 : Z) (later : list Z) :
  let idle := setTime now0 0 t0 in
  notExpired idle = false /\
  (forall (u : DccTimer) (now : Z),
     notExpired (start now u) = true /\ notExpired (restart now u) = true /\
     runTime (start now u) = runTime u /\ runTime (restart now u) = runTime u) /\
  runTime (start now1 idle) = 0 /\
  fst (expired now2 (start now1 idle)) = true /\
  fst (expired now2 (restart now1 idle)) = true /\
  fst (expired_all later (snd (expired now2 (start now1 idle)))) =
    replicate (length later) false /\
  fst (expired_all later (snd (expired now2 (restart now1 idle)))) =
    replicate (length later) false.
Proof.
  cbn zeta.
  assert (Hz : (0 <=? uint32 (now2 - now1)) = true)
    by (apply Z.leb_le, uint32_nonneg).
  assert (He : expired now2 (start now1 (setTime now0 0 t0)) =
               (true, mkDccTimer 0 false now1)).
  { unfold expired, start, setTime. simpl. now rewrite Hz. }
  unfold restart. rewrite He. simpl.
  repeat split.
  all: now rewrite expired_all_disarmed by reflexivity.
Qed.

Lemma C7_expired_witness :
  let clock := [10; 60; 120; 130; 4294967000] in
  let t := setTime 0 100 DccTimer_new in
  let due := fun now : Z => 100 <=? uint32 (now - 0) in
  let answers := fst (expired_all clock t) in
  answers = [false; false; true; false; false] /\
  (length answers = length clock /\
   (forall now : Z, elapsed t now = due now) /\
   (forall (k : nat) (now : Z), clock !! k = Some now ->
      answers !! k =
        Some (due now && forallb (fun n => negb (due n)) (take k clock))) /\
   (forall k : nat,
      answers !! k = Some true <->
      exists now : Z,
        clock !! k = Some now /\ 100 <= uint32 (now - 0) /\
        forall (j : nat) (n : Z),
          (j < k)%nat -> clock !! j = Some n -> uint32 (n - 0) < 100) /\
   (forall j k : nat,
      answers !! j = Some true -> answers !! k = Some true -> j = k) /\
   (forall (polled later : list Z),
      fst (expired_all later (stop (snd (expired_all polled t)))) =
        replicate (length later) false)).
Proof.
  split; [reflexivity|].
  apply (C7_expired_fires_once DccTimer_new 0 100 100 (setTime 0 100 DccTimer_new)
           [10; 60; 120; 130; 4294967000]).
  left. split; [lia | split; reflexivity].
Defined.

(** ** DccButton *)

(** One [read()]: what the call does to the debounced state. *)
Lemma DccButton_read_step (now port : Z) (b : DccButton) :
  let b' := DccButton_read now port b in
  m_dbTime b' = m_dbTime b /\
  m_changed b' = negb (eqb (m_state b') (m_state b)) /\
  (m_changed b' = true ->
     m_dbTime b <= uint32 (now - m_lastChange b) /\ m_lastChange b' = now) /\
  (m_changed b' = false ->
     m_state b' = m_state b /\ m_lastChange b' = m_lastChange b) /\
  (uint32 (now - m_lastChange b) < m_dbTime b -> m_changed b' = false) /\
  wasPressed b' = negb (m_state b) && m_state b'.
Proof.
  unfold DccButton_read, wasPressed. cbn zeta.
  destruct (Z.ltb_spec (uint32 (now - m_lastChange b)) (m_dbTime b)) as [Hlt|Hge];
    cbn [m_dbTime m_changed m_state m_lastChange].
  - rewrite eqb_reflx. cbn [negb].
    repeat split; try discriminate.
    now destruct (m_state b).
  - set (pv := pinVal (m_invert b) (m_bit b) port).
    clearbody pv.
    repeat split; intros; try lia;
      destruct pv, (m_state b); simpl in *; congruence.
Qed.

(** Between two accepted transitions: when the reads up to position [k]
    accept nothing and the read at [k] accepts a transition, the debounce
    time has passed since the last change the button had recorded. *)
Lemma read_all_next_accepted
    (samples : list (Z * Z)) (b : DccButton) (k : nat) (nk pk : Z) (sk : DccButton) :
  samples !! k = Some (nk, pk) ->
  read_all samples b !! k = Some sk ->
  m_changed sk = true ->
  (forall (i : nat) (si : DccButton),
     (i < k)%nat -> read_all samples b !! i = Some si -> m_changed si = false) ->
  m_dbTime b <= uint32 (nk - m_lastChange b).
Proof.
  revert b k. induction samples as [|[n p] rest IH]; intros b k Hs Hk Hc Hnone.
  - discriminate.
  - destruct (DccButton_read_step n p b) as (Hdb & _ & Hacc & Hrej & _).
    cbn zeta in *. destruct k as [|k]; simpl in *.
    + injection Hs as <- <-. injection Hk as <-. now apply Hacc.
    + assert (H0 : m_changed (DccButton_read n p b) = false)
        by (apply (Hnone 0%nat); [lia|reflexivity]).
      destruct (Hrej H0) as [_ Hlast].
      assert (Hnext : m_dbTime (DccButton_read n p b) <=
                      uint32 (nk - m_lastChange (DccButton_read n p b))).
      { apply (IH _ k Hs Hk Hc).
        intros i si Hi Hsi. apply (Hnone (S i)); [lia|exact Hsi]. }
      now rewrite Hdb, Hlast in Hnext.
Qed.

(** C8: for every sequence of [read()] calls,
    - a read changes the debounced state only when at least [m_dbTime] has
      passed since the recorded last change, and then records its own
      time; a sample inside the debounce time is rejected, and a read that
      accepts no transition leaves state and [m_lastChange] as they were;
    - two consecutive accepted transitions are at least [m_dbTime] apart;
    - [wasPressed()] is true after exactly those reads that accepted a
      press edge (released before the read, pressed after it), so each
      accepted press edge is reported by one read, and the read after it
      reports none. *)
Theorem C8_debounce (samples : list (Z * Z)) (b : DccButton) :
  let states := read_all samples b in
  (forall (k : nat) (now port : Z) (prev cur : DccButton),
     samples !! k = Some (now, port) ->
     (b :: states) !! k = Some prev ->
     states !! k = Some cur ->
     cur = DccButton_read now port prev /\
     (m_state cur <> m_state prev ->
        m_dbTime b <= uint32 (now - m_lastChange prev) /\ m_lastChange cur = now) /\
     (uint32 (now - m_lastChange prev) < m_dbTime b ->
        m_state cur = m_state prev /\ m_lastChange cur = m_lastChange prev) /\
     (m_state cur = m_state prev -> m_lastChange cur = m_lastChange prev) /\
     (wasPressed cur = true <-> m_state prev = false /\ m_state cur = true) /\
     (forall (now' port' : Z),
        wasPressed cur = true ->
        wasPressed (DccButton_read now' port' cur) = false)) /\
  (forall (j k : nat) (nj pj nk pk : Z) (sj sk : DccButton),
     (j < k)%nat ->
     samples !! j = Some (nj, pj) -> samples !! k = Some (nk, pk) ->
     states !! j = Some sj -> states !! k = Some sk ->
     m_changed sj = true -> m_changed sk = true ->
     (forall (i : nat) (si : DccButton),
        (j < i < k)%nat -> states !! i = Some si -> m_changed si = false) ->
     m_dbTime b <= uint32 (nk - nj)).
Proof.
  cbn zeta. split.
  - revert b. induction samples as [|[n p] rest IH];
      intros b k now port prev cur Hs Hp Hc; [discriminate|].
    destruct k as [|k]; simpl in *.
    + injection Hs as <- <-. injection Hp as <-. injection Hc as <-.
      destruct (DccButton_read_step n p b) as (Hdb & Hch & Hacc & Hrej & Hin & Hwp).
      cbn zeta in *.
      assert (Hne : m_state (DccButton_read n p b) <> m_state b ->
                    m_changed (DccButton_read n p b) = true).
      { rewrite Hch. intros Hd.
        destruct (m_state (DccButton_read n p b)), (m_state b);
          try reflexivity; now contradiction Hd. }
      assert (Heq : m_state (DccButton_read n p b) = m_state b ->
                    m_changed (DccButton_read n p b) = false).
      { rewrite Hch. intros ->. now rewrite eqb_reflx. }
      split; [reflexivity|]. split; [intros Hd; apply Hacc, Hne, Hd|].
      split; [intros Hlt; apply Hrej, Hin, Hlt|].
      split; [intros He; apply Hrej, Heq, He|].
      split.
      * rewrite Hwp, andb_true_iff, negb_true_iff. reflexivity.
      * intros now' port' Hw.
        destruct (DccButton_read_step now' port' (DccButton_read n p b))
          as (_ & _ & _ & _ & _ & Hwp').
        cbn zeta in Hwp'. rewrite Hwp'.
        unfold wasPressed in Hw. apply andb_true_iff in Hw as [-> _].
        reflexivity.
    + destruct (DccButton_read_step n p b) as (Hdb & _).
      cbn zeta in Hdb. rewrite <- Hdb.
      exact (IH (DccButton_read n p b) k now port prev cur Hs Hp Hc).
  - revert b. induction samples as [|[n p] rest IH];
      intros b j k nj pj nk pk sj sk Hjk Hj Hk Hsj Hsk Hcj Hck Hnone;
      [discriminate|].
    destruct (DccButton_read_step n p b) as (Hdb & _ & Hacc & _).
    cbn zeta in *.
    destruct k as [|k]; [lia|]. destruct j as [|j]; simpl in *.
    + injection Hj as <- <-. injection Hsj as <-.
      destruct (Hacc Hcj) as [_ Hlast].
      assert (Hnext : m_dbTime (DccButton_read n p b) <=
                      uint32 (nk - m_lastChange (DccButton_read n p b))).
      { apply (read_all_next_accepted rest _ k nk pk sk Hk Hsk Hck).
        intros i si Hi Hsi. apply (Hnone (S i)); [lia|exact Hsi]. }
      now rewrite Hdb, Hlast in Hnext.
    + rewrite <- Hdb.
      apply (IH _ j k nj pj nk pk sj sk); try assumption; [lia|].
      intros i si Hi Hsi. apply (Hnone (S i)); [lia|exact Hsi].
Qed.

Lemma C8_debounce_witness :
  let b := attach 0 25 true true 0x40 0 0x40 in
  let samples := [(10, 0x40); (30, 0x00); (40, 0x40); (50, 0x00);
                  (60, 0x00); (70, 0x40); (80, 0x40)] in
  let pressed := DccButton_read 30 0x00 (DccButton_read 10 0x40 b) in
  (m_dbTime b <= uint32 (30 - 0) /\ m_lastChange pressed = 30) /\
  (forall now' port' : Z, wasPressed (DccButton_read now' port' pressed) = false) /\
  m_dbTime b <= uint32 (70 - 30).
Proof.
  intros b samples pressed.
  destruct (C8_debounce samples b) as [Hstep Hspace].
  destruct (Hstep 1%nat 30 0x00 (DccButton_read 10 0x40 b) pressed
              eq_refl eq_refl eq_refl) as (_ & Hacc & _ & _ & _ & Honce).
  split; [|split].
  - apply Hacc. vm_compute. discriminate.
  - intros now' port'. apply Honce. reflexivity.
  - apply (Hspace 1%nat 5%nat 30 0x00 70 0x40 pressed
             (DccButton_read 70 0x40
                (DccButton_read 60 0x00
                   (DccButton_read 50 0x00 (DccButton_read 40 0x40 pressed)))));
      [lia | reflexivity | reflexivity | reflexivity | reflexivity
      | reflexivity | reflexivity |].
    intros i si Hi Hsi.
    do 5 (destruct i as [|i]; [try lia; try (injection Hsi as <-; reflexivity)|]).
    lia.
Defined.

(** A bouncing press and release, read every 10 ms with the default
    debounce time of 25 ms (button on bit 6, active low): the bounce at
    40 ms is rejected, the press is reported once. *)
Example DccButton_bounce :
  let b := attach 0 25 true true 0x40 0 0x40 in
  let states := read_all [(10, 0x40); (30, 0x00); (40, 0x40); (50, 0x00);
                          (60, 0x00); (70, 0x40); (80, 0x40)] b in
  map m_state states = [false; true; true; true; true; false; false] /\
  map wasPressed states = [false; true; false; false; false; false; false] /\
  map wasReleased states = [false; false; false; false; false; true; false] /\
  map m_lastChange states = [0; 30; 30; 30; 30; 70; 70].
Proof. vm_compute. repeat split. Qed.

(** A timer of 100 ms armed just before the clock wraps around. *)
Example DccTimer_wrap :
  fst (expired_all [4294967290; 3; 5; 130] (setTime 4294967200 100 DccTimer_new))
  = [false; false; true; false].
Proof. reflexivity. Qed.

(** ** FlashLed *)

Lemma updates_app (c1 c2 : list Z) (l : FlashLed) :
  updates (c1 ++ c2) l = updates c2 (updates c1 l).
Proof. unfold updates. apply foldl_app. Qed.

Lemma last_cons_default (x : Z) (c : list Z) (d d' : Z) :
  List.last (x :: c) d = List.last (x :: c) d'.
Proof.
  revert x. induction c as [|y c IH]; intros x; [reflexivity|].
  change (List.last (y :: c) d = List.last (y :: c) d'). apply IH.
Qed.

Lemma qualifying_app (last : Z) (c1 c2 : list Z) :
  qualifying last (c1 ++ c2) <->
  qualifying last c1 /\ qualifying (List.last c1 last) c2.
Proof.
  revert last. induction c1 as [|t c1 IH]; intros last.
  - simpl. tauto.
  - cbn [app qualifying]. rewrite IH.
    destruct c1 as [|x c1]; [simpl; tauto|].
    change (List.last (t :: x :: c1) last) with (List.last (x :: c1) last).
    rewrite (last_cons_default x c1 t last). tauto.
Qed.

Lemma flashing_modes (l : FlashLed) :
  flashing l -> (mode l =? alwaysOn) = false /\ (mode l =? alwaysOff) = false.
Proof. intros [-> | ->]; split; reflexivity. Qed.

Lemma update_countdown (now : Z) (l : FlashLed) :
  flashing l ->
  100 <= uint32 (now - last_flash_time l) ->
  uint8 (flash_time_remain l - 1) <> 0 ->
  update now l =
    set_flash_time_remain (uint8 (flash_time_remain l - 1))
      (set_last_flash_time now l).
Proof.
  intros Hf Hq Hr. unfold update.
  destruct (flashing_modes l Hf) as [-> ->].
  apply Z.leb_le in Hq. rewrite Hq. cbn zeta.
  cbn [flash_time_remain set_flash_time_remain set_last_flash_time].
  apply Z.eqb_neq in Hr. now rewrite Hr.
Qed.

Lemma update_on_end (now : Z) (l : FlashLed) :
  flashing l ->
  100 <= uint32 (now - last_flash_time l) ->
  flash_time_remain l = 1 ->
  ledIsOn l = true ->
  update now l = after_on now l.
Proof.
  intros Hf Hq Hr Hon. unfold update.
  destruct (flashing_modes l Hf) as [-> ->].
  apply Z.leb_le in Hq. rewrite Hq. cbn zeta.
  destruct l as [on lvl a b p n m last k r]. cbn in *. subst r.
  unfold ledIsOn in *. cbn in *. rewrite Hon.
  unfold after_on, toggle, ledIsOn. cbn.
  destruct (k =? n); cbn.
  - destruct (m =? neverStopFlashing); cbn; now rewrite Hon.
  - now rewrite Hon.
Qed.

Lemma update_off_end (now : Z) (l : FlashLed) :
  flashing l ->
  100 <= uint32 (now - last_flash_time l) ->
  flash_time_remain l = 1 ->
  ledIsOn l = false ->
  update now l = after_off now l.
Proof.
  intros Hf Hq Hr Hon. unfold update.
  destruct (flashing_modes l Hf) as [-> ->].
  apply Z.leb_le in Hq. rewrite Hq. cbn zeta.
  destruct l as [on lvl a b p n m last k r]. cbn in *. subst r.
  unfold ledIsOn in *. cbn in *. rewrite Hon.
  unfold after_off, toggle, ledIsOn. cbn. now rewrite Hon.
Qed.

(** A phase of [r] steps, [1 <= r <= 255]: the LED keeps its level for
    [r - 1] calls and changes at the [r]-th. *)
Lemma on_phase (clock : list Z) (l : FlashLed) :
  flashing l ->
  ledIsOn l = true ->
  flash_time_remain l = Z.of_nat (length clock) ->
  (1 <= length clock <= 255)%nat ->
  qualifying (last_flash_time l) clock ->
  updates clock l = after_on (List.last clock 0) l.
Proof.
  revert l. induction clock as [|t rest IH]; intros l Hf Hon Hr Hlen Hq.
  - simpl in Hlen. lia.
  - destruct rest as [|t' rest'].
    + simpl in *. apply update_on_end; tauto.
    + destruct Hq as [Hq1 Hq2].
      assert (Hs : uint8 (flash_time_remain l - 1) = Z.of_nat (length (t' :: rest'))).
      { rewrite Hr. unfold uint8. cbn [length] in *. rewrite Z.mod_small; lia. }
      change (updates (t :: t' :: rest') l)
        with (updates (t' :: rest') (update t l)).
      rewrite update_countdown; [|exact Hf|exact Hq1|rewrite Hs; cbn [length]; lia].
      rewrite IH.
      * change (List.last (t :: t' :: rest') 0) with (List.last (t' :: rest') 0).
        destruct l; reflexivity.
      * destruct l; exact Hf.
      * destruct l; exact Hon.
      * rewrite <- Hs. destruct l; reflexivity.
      * cbn [length] in *. lia.
      * destruct l; exact Hq2.
Qed.

Lemma off_phase (clock : list Z) (l : FlashLed) :
  flashing l ->
  ledIsOn l = false ->
  flash_time_remain l = Z.of_nat (length clock) ->
  (1 <= length clock <= 255)%nat ->
  qualifying (last_flash_time l) clock ->
  updates clock l = after_off (List.last clock 0) l.
Proof.
  revert l. induction clock as [|t rest IH]; intros l Hf Hon Hr Hlen Hq.
  - simpl in Hlen. lia.
  - destruct rest as [|t' rest'].
    + simpl in *. apply update_off_end; tauto.
    + destruct Hq as [Hq1 Hq2].
      assert (Hs : uint8 (flash_time_remain l - 1) = Z.of_nat (length (t' :: rest'))).
      { rewrite Hr. unfold uint8. cbn [length] in *. rewrite Z.mod_small; lia. }
      change (updates (t :: t' :: rest') l)
        with (updates (t' :: rest') (update t l)).
      rewrite update_countdown; [|exact Hf|exact Hq1|rewrite Hs; cbn [length]; lia].
      rewrite IH.
      * change (List.last (t :: t' :: rest') 0) with (List.last (t' :: rest') 0).
        destruct l; reflexivity.
      * destruct l; exact Hf.
      * destruct l; exact Hon.
      * rewrite <- Hs. destruct l; reflexivity.
      * cbn [length] in *. lia.
      * destruct l; exact Hq2.
Qed.

Lemma flash_on_start (t : Z) (l : FlashLed) : flash t l = on_start t 1 l.
Proof. reflexivity. Qed.

Lemma updates_steady (clock : list Z) (l : FlashLed) :
  mode l = alwaysOn \/ mode l = alwaysOff -> updates clock l = l.
Proof.
  intros Hm. induction clock as [|t rest IH]; [reflexivity|].
  change (updates (t :: rest) l) with (updates rest (update t l)).
  replace (update t l) with l; [exact IH|].
  unfold update. now destruct Hm as [-> | ->].
Qed.

Lemma last_app_cons (c1 : list Z) (x : Z) (c2 : list Z) (d d' : Z) :
  List.last (c1 ++ x :: c2) d = List.last (x :: c2) d'.
Proof.
  induction c1 as [|y c1 IH].
  - apply last_cons_default.
  - rewrite <- IH. destruct c1; reflexivity.
Qed.

Lemma last_drop (n : nat) (c : list Z) (d d' : Z) :
  (n < length c)%nat -> List.last (drop n c) d = List.last c d'.
Proof.
  intros Hn. rewrite <- (take_drop n c) at 2.
  destruct (drop n c) as [|x c2] eqn:E.
  - apply (f_equal length) in E. rewrite length_drop in E. simpl in E. lia.
  - symmetry. apply last_app_cons.
Qed.

Lemma qualifying_split (n : nat) (last : Z) (clock : list Z) :
  qualifying last clock ->
  qualifying last (take n clock) /\
  qualifying (List.last (take n clock) last) (drop n clock).
Proof. intros Hq. apply qualifying_app. now rewrite take_drop. Qed.

(** The on phase of flash [k], from its start to its end. *)
Lemma on_phase_from_start (clock : list Z) (t k : Z) (l : FlashLed) :
  flashing l ->
  1 <= flashOntime l <= 255 ->
  length clock = Z.to_nat (flashOntime l) ->
  qualifying t clock ->
  updates clock (on_start t k l) =
    let t' := List.last clock 0 in
    if k =? flashCount l then
      if mode l =? neverStopFlashing then pause_start t' l
      else series_done t' l
    else off_start t' k l.
Proof.
  intros Hf Ha Hlen Hq.
  rewrite on_phase.
  - destruct l as [on lvl a b p n m last k0 r].
    unfold after_on, on_start, off_start, pause_start, series_done. cbn.
    destruct (k =? n) eqn:E; [|reflexivity].
    apply Z.eqb_eq in E. subst k.
    now destruct (m =? neverStopFlashing).
  - destruct l; exact Hf.
  - destruct l; unfold ledIsOn; cbn. apply eqb_reflx.
  - rewrite Hlen. destruct l; cbn in *. lia.
  - rewrite Hlen. lia.
  - destruct l; exact Hq.
Qed.

(** The off phase after flash [k], and the pause, up to the next flash. *)
Lemma off_phase_from_start (clock : list Z) (t k : Z) (l : FlashLed) :
  flashing l ->
  1 <= flashOfftime l <= 255 ->
  length clock = Z.to_nat (flashOfftime l) ->
  qualifying t clock ->
  updates clock (off_start t k l) = on_start (List.last clock 0) (uint8 (k + 1)) l.
Proof.
  intros Hf Hb Hlen Hq.
  rewrite off_phase.
  - destruct l; reflexivity.
  - destruct l; exact Hf.
  - destruct l as [on lvl a b p n m last k0 r]; unfold ledIsOn; cbn.
    now destruct on.
  - rewrite Hlen. destruct l; cbn in *. lia.
  - rewrite Hlen. lia.
  - destruct l; exact Hq.
Qed.

Lemma pause_from_start (clock : list Z) (t : Z) (l : FlashLed) :
  flashing l ->
  1 <= flashPause l <= 255 ->
  length clock = Z.to_nat (flashPause l) ->
  qualifying t clock ->
  updates clock (pause_start t l) = on_start (List.last clock 0) 1 l.
Proof.
  intros Hf Hb Hlen Hq.
  rewrite off_phase.
  - destruct l; reflexivity.
  - destruct l; exact Hf.
  - destruct l as [on lvl a b p n m last k0 r]; unfold ledIsOn; cbn.
    now destruct on.
  - rewrite Hlen. destruct l; cbn in *. lia.
  - rewrite Hlen. lia.
  - destruct l; exact Hq.
Qed.

(** One flash that is not the last of its series: on for [flashOntime]
    steps, off for [flashOfftime] steps, then the next flash starts. *)
Lemma flash_cycle (clock : list Z) (t k : Z) (l : FlashLed) :
  flashing l ->
  1 <= flashOntime l <= 255 ->
  1 <= flashOfftime l <= 255 ->
  k <> flashCount l ->
  length clock = Z.to_nat (flashOntime l + flashOfftime l) ->
  qualifying t clock ->
  updates clock (on_start t k l) = on_start (List.last clock 0) (uint8 (k + 1)) l.
Proof.
  intros Hf Ha Hb Hk Hlen Hq.
  set (na := Z.to_nat (flashOntime l)).
  destruct (qualifying_split na t clock Hq) as [Hq1 Hq2].
  assert (Hl1 : length (take na clock) = na) by (rewrite length_take; lia).
  assert (Hl2 : length (drop na clock) = Z.to_nat (flashOfftime l))
    by (rewrite length_drop; lia).
  assert (Hne : take na clock <> []).
  { intros E. rewrite E in Hl1. simpl in Hl1. lia. }
  rewrite <- (take_drop na clock) at 1. rewrite updates_app.
  rewrite (on_phase_from_start _ t k l Hf Ha Hl1 Hq1). cbn zeta.
  apply Z.eqb_neq in Hk. rewrite Hk.
  rewrite (off_phase_from_start _ _ k l Hf Hb Hl2).
  - now rewrite (last_drop na clock 0 0) by lia.
  - destruct (take na clock) as [|x c]; [contradiction|].
    now rewrite (last_cons_default x c 0 t).
Qed.

Lemma last_app_default (c1 c2 : list Z) (d : Z) :
  List.last (c1 ++ c2) d = List.last c2 (List.last c1 d).
Proof.
  destruct c2 as [|x c2].
  - now rewrite app_nil_r.
  - apply last_app_cons.
Qed.

Lemma lit_trace_app (c1 c2 : list Z) (l : FlashLed) :
  lit_trace (c1 ++ c2) l = lit_trace c1 l ++ lit_trace c2 (updates c1 l).
Proof.
  revert l. induction c1 as [|t c1 IH]; intros l; [reflexivity|].
  cbn [app lit_trace]. now rewrite IH.
Qed.

Lemma lit_trace_length (clock : list Z) (l : FlashLed) :
  length (lit_trace clock l) = length clock.
Proof.
  revert l. induction clock as [|t c IH]; intros l; [reflexivity|].
  cbn [lit_trace length]. now rewrite IH.
Qed.

Lemma lit_trace_steady (clock : list Z) (l : FlashLed) :
  mode l = alwaysOn \/ mode l = alwaysOff ->
  lit_trace clock l = replicate (length clock) (ledIsOn l).
Proof.
  intros Hm. induction clock as [|t rest IH]; [reflexivity|].
  cbn [lit_trace length replicate].
  replace (update t l) with l; [now rewrite IH|].
  unfold update. now destruct Hm as [-> | ->].
Qed.

Lemma ledIsOn_after_on (t : Z) (l : FlashLed) : ledIsOn (after_on t l) = false.
Proof.
  destruct l as [on lvl a b p n m last k r]. unfold after_on, ledIsOn. cbn.
  destruct (k =? n); [destruct (m =? neverStopFlashing)|]; cbn; now destruct on.
Qed.

Lemma ledIsOn_after_off (t : Z) (l : FlashLed) : ledIsOn (after_off t l) = true.
Proof. destruct l. unfold after_off, ledIsOn. cbn. apply eqb_reflx. Qed.

(** During a phase the LED keeps its level up to the last call, which
    changes it. *)
Lemma phase_trace (clock : list Z) (l : FlashLed) :
  flashing l ->
  flash_time_remain l = Z.of_nat (length clock) ->
  (1 <= length clock <= 255)%nat ->
  qualifying (last_flash_time l) clock ->
  lit_trace clock l =
    replicate (length clock - 1) (ledIsOn l) ++ [negb (ledIsOn l)].
Proof.
  revert l. induction clock as [|t rest IH]; intros l Hf Hr Hlen Hq.
  - simpl in Hlen. lia.
  - destruct rest as [|t' rest'].
    + simpl in *. destruct Hq as [Hq _]. f_equal.
      destruct (ledIsOn l) eqn:Hon.
      * rewrite update_on_end by assumption. apply ledIsOn_after_on.
      * rewrite update_off_end by assumption. apply ledIsOn_after_off.
    + destruct Hq as [Hq1 Hq2].
      assert (Hs : uint8 (flash_time_remain l - 1) = Z.of_nat (length (t' :: rest'))).
      { rewrite Hr. unfold uint8. cbn [length] in *. rewrite Z.mod_small; lia. }
      assert (Hu : update t l =
                   set_flash_time_remain (uint8 (flash_time_remain l - 1))
                     (set_last_flash_time t l)).
      { apply update_countdown; [exact Hf|exact Hq1|].
        rewrite Hs. cbn [length]. lia. }
      change (lit_trace (t :: t' :: rest') l)
        with (ledIsOn (update t l) :: lit_trace (t' :: rest') (update t l)).
      rewrite Hu, IH.
      * replace (length (t :: t' :: rest') - 1)%nat
          with (S (length (t' :: rest') - 1)) by (cbn [length]; lia).
        destruct l; reflexivity.
      * destruct l; exact Hf.
      * rewrite <- Hs. destruct l; reflexivity.
      * cbn [length] in *. lia.
      * destruct l; exact Hq2.
Qed.

Lemma ledIsOn_on_start (t k : Z) (l : FlashLed) : ledIsOn (on_start t k l) = true.
Proof. destruct l. unfold ledIsOn. cbn. apply eqb_reflx. Qed.

Lemma ledIsOn_off_start (t k : Z) (l : FlashLed) : ledIsOn (off_start t k l) = false.
Proof. destruct l as [on ? ? ? ? ? ? ? ? ?]. unfold ledIsOn. cbn. now destruct on. Qed.

Lemma ledIsOn_pause_start (t : Z) (l : FlashLed) : ledIsOn (pause_start t l) = false.
Proof. destruct l as [on ? ? ? ? ? ? ? ? ?]. unfold ledIsOn. cbn. now destruct on. Qed.

Lemma ledIsOn_series_done (t : Z) (l : FlashLed) : ledIsOn (series_done t l) = false.
Proof. destruct l as [on ? ? ? ? ? ? ? ? ?]. unfold ledIsOn. cbn. now destruct on. Qed.

Lemma on_phase_trace (clock : list Z) (t k : Z) (l : FlashLed) :
  flashing l ->
  1 <= flashOntime l <= 255 ->
  length clock = Z.to_nat (flashOntime l) ->
  qualifying t clock ->
  lit_trace clock (on_start t k l) = last_flash_trace (flashOntime l).
Proof.
  intros Hf Ha Hlen Hq. rewrite phase_trace.
  - now rewrite ledIsOn_on_start, Hlen.
  - destruct l; exact Hf.
  - rewrite Hlen. destruct l; cbn in *. lia.
  - rewrite Hlen. lia.
  - destruct l; exact Hq.
Qed.

Lemma off_phase_trace (clock : list Z) (t k : Z) (l : FlashLed) :
  flashing l ->
  1 <= flashOfftime l <= 255 ->
  length clock = Z.to_nat (flashOfftime l) ->
  qualifying t clock ->
  lit_trace clock (off_start t k l) =
    replicate (Z.to_nat (flashOfftime l) - 1) false ++ [true].
Proof.
  intros Hf Ha Hlen Hq. rewrite phase_trace.
  - now rewrite ledIsOn_off_start, Hlen.
  - destruct l; exact Hf.
  - rewrite Hlen. destruct l; cbn in *. lia.
  - rewrite Hlen. lia.
  - destruct l; exact Hq.
Qed.

Lemma pause_trace (clock : list Z) (t : Z) (l : FlashLed) :
  flashing l ->
  1 <= flashPause l <= 255 ->
  length clock = Z.to_nat (flashPause l) ->
  qualifying t clock ->
  lit_trace clock (pause_start t l) =
    replicate (Z.to_nat (flashPause l) - 1) false ++ [true].
Proof.
  intros Hf Ha Hlen Hq. rewrite phase_trace.
  - now rewrite ledIsOn_pause_start, Hlen.
  - destruct l; exact Hf.
  - rewrite Hlen. destruct l; cbn in *. lia.
  - rewrite Hlen. lia.
  - destruct l; exact Hq.
Qed.

Lemma flash_cycle_trace (clock : list Z) (t k : Z) (l : FlashLed) :
  flashing l ->
  1 <= flashOntime l <= 255 ->
  1 <= flashOfftime l <= 255 ->
  k <> flashCount l ->
  length clock = Z.to_nat (flashOntime l + flashOfftime l) ->
  qualifying t clock ->
  lit_trace clock (on_start t k l) = cycle_trace (flashOntime l) (flashOfftime l).
Proof.
  intros Hf Ha Hb Hk Hlen Hq.
  set (na := Z.to_nat (flashOntime l)).
  destruct (qualifying_split na t clock Hq) as [Hq1 Hq2].
  assert (Hl1 : length (take na clock) = na) by (rewrite length_take; lia).
  assert (Hl2 : length (drop na clock) = Z.to_nat (flashOfftime l))
    by (rewrite length_drop; lia).
  rewrite <- (take_drop na clock) at 1. rewrite lit_trace_app.
  rewrite (on_phase_trace _ t k l Hf Ha Hl1 Hq1).
  rewrite (on_phase_from_start _ t k l Hf Ha Hl1 Hq1). cbn zeta.
  apply Z.eqb_neq in Hk. rewrite Hk.
  rewrite (off_phase_trace _ _ k l Hf Hb Hl2).
  - unfold cycle_trace, last_flash_trace. now rewrite <- app_assoc.
  - destruct (take na clock) as [|x c] eqn:E; [simpl in Hl1; lia|].
    now rewrite (last_cons_default x c 0 t).
Qed.

(** [j] flashes in a row, none of them the last of the series. *)
Lemma flash_burst (j : nat) (clock : list Z) (t k : Z) (l : FlashLed) :
  flashing l ->
  1 <= flashOntime l <= 255 ->
  1 <= flashOfftime l <= 255 ->
  0 <= k ->
  k + Z.of_nat j <= flashCount l <= 255 ->
  length clock = (j * Z.to_nat (flashOntime l + flashOfftime l))%nat ->
  qualifying t clock ->
  updates clock (on_start t k l) = on_start (List.last clock t) (k + Z.of_nat j) l /\
  lit_trace clock (on_start t k l) =
    repeat_trace j (cycle_trace (flashOntime l) (flashOfftime l)).
Proof.
  intros Hf Ha Hb. revert clock t k.
  induction j as [|j IH]; intros clock t k Hk Hn Hlen Hq.
  - destruct clock; [|discriminate]. simpl. now rewrite Z.add_0_r.
  - set (c := Z.to_nat (flashOntime l + flashOfftime l)) in *.
    destruct (qualifying_split c t clock Hq) as [Hq1 Hq2].
    assert (Hl1 : length (take c clock) = c) by (rewrite length_take; lia).
    assert (Hl2 : length (drop c clock) = (j * c)%nat)
      by (rewrite length_drop; lia).
    assert (Hne : k <> flashCount l) by lia.
    assert (Hlast : List.last (take c clock) t = List.last (take c clock) 0).
    { destruct (take c clock) as [|x r] eqn:E; [simpl in Hl1; lia|].
      apply last_cons_default. }
    rewrite Hlast in Hq2.
    assert (Hk1 : uint8 (k + 1) = k + 1)
      by (unfold uint8; rewrite Z.mod_small; lia).
    destruct (IH (drop c clock) (List.last (take c clock) 0) (k + 1))
      as [IHs IHt]; [lia|lia|exact Hl2|exact Hq2|].
    rewrite <- (take_drop c clock) at 1 3.
    rewrite updates_app, lit_trace_app.
    rewrite (flash_cycle _ t k l Hf Ha Hb Hne Hl1 Hq1), Hk1.
    rewrite (flash_cycle_trace _ t k l Hf Ha Hb Hne Hl1 Hq1).
    split.
    + rewrite IHs. f_equal; [|lia].
      rewrite <- (take_drop c clock) at 3.
      now rewrite last_app_default, <- Hlast.
    + now rewrite IHt.
Qed.

Lemma update_mode_continuous (now : Z) (l : FlashLed) :
  mode l = neverStopFlashing -> mode (update now l) = neverStopFlashing.
Proof.
  intros Hm. unfold update. rewrite Hm. cbn [Z.eqb neverStopFlashing alwaysOn alwaysOff Pos.eqb].
  destruct (100 <=? _); [|exact Hm]. cbn zeta.
  destruct l as [on lvl a b p n m last k r]. cbn in Hm. subst m.
  cbn. destruct (uint8 (r - 1) =? 0); [|reflexivity].
  unfold toggle, ledIsOn. cbn.
  destruct (eqb lvl on); cbn; [destruct (k =? n); cbn|]; unfold ledIsOn; cbn.
  - now destruct (eqb lvl on).
  - now destruct (eqb lvl on).
  - now destruct (eqb lvl on).
Qed.

(** X4: a single series of [flashCount] flashes ([start_up], [activity],
    [feedback]), stepped by [update()] calls at least 100 ms apart: the LED
    is lit for [flashOntime] steps and dark for [flashOfftime] steps,
    [flashCount] times, the call that ends the last flash sets the mode to
    [alwaysOff], and no later call lights the LED again. *)
Theorem single_series_runs_once
    (l : FlashLed) (t0 : Z) (clock extra : list Z) :
  mode l = singleFlashSerie ->
  1 <= flashOntime l <= 255 ->
  1 <= flashCount l <= 255 ->
  flashCount l = 1 \/ 1 <= flashOfftime l <= 255 ->
  length clock =
    Z.to_nat (flashCount l * flashOntime l + (flashCount l - 1) * flashOfftime l) ->
  qualifying t0 (clock ++ extra) ->
  let l' := updates (clock ++ extra) (flash t0 l) in
  l' = series_done (List.last clock 0) l /\
  mode l' = alwaysOff /\
  ledIsOn l' = false /\
  lit_trace (clock ++ extra) (flash t0 l) =
    repeat_trace (Z.to_nat (flashCount l - 1))
      (cycle_trace (flashOntime l) (flashOfftime l)) ++
    last_flash_trace (flashOntime l) ++
    replicate (length extra) false.
Proof.
  intros Hm Ha Hn Hb Hlen Hq. cbn zeta.
  assert (Hf : flashing l) by (left; exact Hm).
  apply qualifying_app in Hq as [Hq _].
  set (a := flashOntime l) in *. set (b := flashOfftime l) in *.
  set (n := flashCount l) in *.
  remember (Z.to_nat (n - 1)) as j eqn:Ej.
  remember (j * Z.to_nat (a + b))%nat as c eqn:Ec.
  assert (Hc : (c + Z.to_nat a = length clock)%nat).
  { rewrite Hlen, Ec, Ej. destruct Hb as [Hb|Hb].
    - rewrite Hb. simpl. lia.
    - nia. }
  assert (Hl1 : length (take c clock) = c) by (rewrite length_take; lia).
  assert (Hl2 : length (drop c clock) = Z.to_nat a) by (rewrite length_drop; lia).
  destruct (qualifying_split c t0 clock Hq) as [Hq1 Hq2].
  assert (Hburst :
    updates (take c clock) (on_start t0 1 l) =
      on_start (List.last (take c clock) t0) n l /\
    lit_trace (take c clock) (on_start t0 1 l) = repeat_trace j (cycle_trace a b)).
  { destruct Hb as [Hb|Hb].
    - rewrite Hb in Ej. simpl in Ej. subst j. simpl in Ec. subst c.
      rewrite take_0. simpl. now rewrite Hb.
    - replace n with (1 + Z.of_nat j) at 1 by lia.
      apply flash_burst; try assumption; lia. }
  destruct Hburst as [Hbs Hbt].
  assert (Hend := on_phase_from_start (drop c clock)
                    (List.last (take c clock) t0) n l Hf Ha Hl2 Hq2).
  cbn zeta in Hend. fold n in Hend. rewrite Z.eqb_refl, Hm in Hend.
  cbn [Z.eqb singleFlashSerie neverStopFlashing Pos.eqb] in Hend.
  rewrite (last_drop c clock 0 0) in Hend by lia.
  assert (Hclock : updates clock (flash t0 l) = series_done (List.last clock 0) l).
  { rewrite flash_on_start. rewrite <- (take_drop c clock) at 1.
    now rewrite updates_app, Hbs. }
  assert (Hdone : mode (series_done (List.last clock 0) l) = alwaysOff)
    by (destruct l; reflexivity).
  rewrite updates_app, Hclock.
  rewrite (updates_steady extra _ (or_intror Hdone)).
  split; [reflexivity|]. split; [exact Hdone|].
  split; [apply ledIsOn_series_done|].
  rewrite lit_trace_app, Hclock.
  rewrite (lit_trace_steady extra _ (or_intror Hdone)).
  rewrite ledIsOn_series_done.
  rewrite flash_on_start. rewrite <- (take_drop c clock) at 1.
  rewrite lit_trace_app, Hbt, Hbs.
  rewrite (on_phase_trace _ _ n l Hf Ha Hl2 Hq2).
  now rewrite <- !app_assoc.
Qed.


(** X6: an on time of 0 is not "no flash": [--flash_time_remain] wraps
    from 0 to 255, so the LED stays lit for 256 steps before the call that
    switches it off. *)
Theorem zero_ontime_lasts_256_steps
    (l : FlashLed) (t0 : Z) (clock : list Z) :
  flashing l ->
  flashOntime l = 0 ->
  length clock = 256%nat ->
  qualifying t0 clock ->
  lit_trace clock (flash t0 l) = replicate 255 true ++ [false].
Proof.
  intros Hf Ha Hlen Hq.
  destruct clock as [|t rest]; [discriminate|].
  destruct Hq as [Hq1 Hq2].
  assert (Hu : update t (flash t0 l) =
               set_flash_time_remain 255 (set_last_flash_time t (flash t0 l))).
  { rewrite update_countdown.
    - destruct l; cbn in *. subst. reflexivity.
    - destruct l; exact Hf.
    - destruct l; exact Hq1.
    - destruct l; cbn in *. subst. discriminate. }
  cbn [lit_trace]. rewrite Hu, phase_trace.
  - simpl in Hlen. injection Hlen as Hlen. rewrite Hlen.
    destruct l; unfold ledIsOn; cbn. rewrite eqb_reflx. reflexivity.
  - destruct l; exact Hf.
  - simpl in Hlen. injection Hlen as Hlen. rewrite Hlen.
    destruct l; reflexivity.
  - simpl in Hlen. lia.
  - destruct l; exact Hq2.
Qed.

Lemma single_series_witness :
  let clock := [100; 200; 300; 400; 500; 600] in
  let extra := [700; 800] in
  let l' := updates (clock ++ extra) (start_up 0 led0) in
  l' = series_done 600 (set_pattern 2 2 2 0 singleFlashSerie led0) /\
  mode l' = alwaysOff /\
  ledIsOn l' = false /\
  lit_trace (clock ++ extra) (start_up 0 led0) =
    [true; false; false; true; true; false; false; false].
Proof.
  apply (single_series_runs_once (set_pattern 2 2 2 0 singleFlashSerie led0) 0
           [100; 200; 300; 400; 500; 600] [700; 800]).
  - reflexivity.
  - simpl. lia.
  - simpl. lia.
  - right. simpl. lia.
  - reflexivity.
  - vm_compute. repeat split; discriminate.
Defined.


Lemma zero_ontime_witness :
  lit_trace (map (fun k => 100 * Z.of_nat k) (seq 1 256))
    (flash 0 (set_ontime_count 0 1 singleFlashSerie led0)) =
  replicate 255 true ++ [false].
Proof.
  apply (zero_ontime_lasts_256_steps (set_ontime_count 0 1 singleFlashSerie led0) 0
           (map (fun k => 100 * Z.of_nat k) (seq 1 256))).
  - left. reflexivity.
  - reflexivity.
  - reflexivity.
  - vm_compute. repeat split; discriminate.
Defined.

(** The mode of a continuous pattern survives every run of [update()]
    calls. *)
Lemma updates_mode_continuous (clock : list Z) (l : FlashLed) :
  mode l = neverStopFlashing -> mode (updates clock l) = neverStopFlashing.
Proof.
  revert l. induction clock as [|t rest IH]; intros l Hm; [exact Hm|].
  change (updates (t :: rest) l) with (updates rest (update t l)).
  apply IH. now apply update_mode_continuous.
Qed.

(** One period of [flashSlow]: lit for 5 steps, dark for 5, and the LED is
    then as a [flashSlow()] at the last reading leaves it. *)
Lemma flashSlow_period (t0 : Z) (l : FlashLed) (clock : list Z) :
  length clock = 10%nat ->
  qualifying t0 clock ->
  lit_trace clock (flashSlow t0 l) =
    [true; true; true; true; false; false; false; false; false; true] /\
  updates clock (flashSlow t0 l) = flashSlow (List.last clock 0) l.
Proof.
  intros Hlen Hq. unfold flashSlow.
  set (s := set_pattern 5 5 1 5 neverStopFlashing l).
  assert (Hf : flashing s) by (right; reflexivity).
  assert (Ha : 1 <= flashOntime s <= 255) by (simpl; lia).
  assert (Hp : 1 <= flashPause s <= 255) by (simpl; lia).
  destruct (qualifying_split 5 t0 clock Hq) as [Hq1 Hq2].
  assert (Hl1 : length (take 5 clock) = Z.to_nat (flashOntime s))
    by (rewrite length_take, Hlen; reflexivity).
  assert (Hl2 : length (drop 5 clock) = Z.to_nat (flashPause s))
    by (rewrite length_drop, Hlen; reflexivity).
  assert (Hon := on_phase_from_start (take 5 clock) t0 1 s Hf Ha Hl1 Hq1).
  cbn zeta in Hon.
  change (1 =? flashCount s) with true in Hon.
  change (mode s =? neverStopFlashing) with true in Hon. cbn iota in Hon.
  assert (Hlast : List.last (take 5 clock) t0 = List.last (take 5 clock) 0).
  { destruct (take 5 clock) as [|x r] eqn:E; [discriminate Hl1|].
    apply last_cons_default. }
  rewrite Hlast in Hq2.
  rewrite flash_on_start. split.
  - rewrite <- (take_drop 5 clock) at 1.
    rewrite lit_trace_app, Hon.
    rewrite (on_phase_trace _ _ 1 s Hf Ha Hl1 Hq1).
    rewrite (pause_trace _ _ s Hf Hp Hl2 Hq2).
    reflexivity.
  - rewrite <- (take_drop 5 clock) at 1.
    rewrite updates_app, Hon.
    rewrite (pause_from_start _ _ s Hf Hp Hl2 Hq2).
    rewrite (last_drop 5 clock 0 0) by lia.
    reflexivity.
Qed.

(** The series of [start_up]: lit 2 steps, dark 2, lit 2, and then off
    for good. *)
Lemma start_up_series (t0 : Z) (l : FlashLed) (clock extra : list Z) :
  length clock = 6%nat ->
  qualifying t0 (clock ++ extra) ->
  lit_trace (clock ++ extra) (start_up t0 l) =
    [true; false; false; true; true; false] ++ replicate (length extra) false /\
  mode (updates (clock ++ extra) (start_up t0 l)) = alwaysOff /\
  ledIsOn (updates (clock ++ extra) (start_up t0 l)) = false.
Proof.
  intros Hlen Hq. unfold start_up.
  set (s := set_pattern 2 2 2 (flashPause l) singleFlashSerie l).
  assert (Hf : flashing s) by (left; reflexivity).
  assert (Ha : 1 <= flashOntime s <= 255) by (simpl; lia).
  assert (Hb : 1 <= flashOfftime s <= 255) by (simpl; lia).
  apply qualifying_app in Hq as [Hq Hqe].
  destruct (qualifying_split 4 t0 clock Hq) as [Hq1 Hq2].
  assert (Hl1 : length (take 4 clock) = Z.to_nat (flashOntime s + flashOfftime s))
    by (rewrite length_take, Hlen; reflexivity).
  assert (Hl2 : length (drop 4 clock) = Z.to_nat (flashOntime s))
    by (rewrite length_drop, Hlen; reflexivity).
  assert (Hk : 1 <> flashCount s) by discriminate.
  assert (Hcyc := flash_cycle (take 4 clock) t0 1 s Hf Ha Hb Hk Hl1 Hq1).
  change (uint8 (1 + 1)) with 2 in Hcyc.
  assert (Hlast : List.last (take 4 clock) t0 = List.last (take 4 clock) 0).
  { destruct (take 4 clock) as [|x r] eqn:E; [discriminate Hl1|].
    apply last_cons_default. }
  rewrite Hlast in Hq2.
  assert (Hon := on_phase_from_start (drop 4 clock) _ 2 s Hf Ha Hl2 Hq2).
  cbn zeta in Hon.
  change (2 =? flashCount s) with true in Hon.
  change (mode s =? neverStopFlashing) with false in Hon. cbn iota in Hon.
  assert (Hend : updates clock (flash t0 s) = series_done (List.last (drop 4 clock) 0) s).
  { rewrite flash_on_start, <- (take_drop 4 clock) at 1.
    now rewrite updates_app, Hcyc, Hon. }
  assert (Hoff : mode (series_done (List.last (drop 4 clock) 0) s) = alwaysOn \/
                 mode (series_done (List.last (drop 4 clock) 0) s) = alwaysOff)
    by (right; reflexivity).
  rewrite lit_trace_app, updates_app, Hend.
  rewrite (lit_trace_steady extra _ Hoff), (updates_steady extra _ Hoff).
  rewrite ledIsOn_series_done.
  split; [|split; reflexivity].
  f_equal.
  rewrite flash_on_start, <- (take_drop 4 clock) at 1.
  rewrite lit_trace_app, Hcyc.
  rewrite (flash_cycle_trace _ _ 1 s Hf Ha Hb Hk Hl1 Hq1).
  rewrite (on_phase_trace _ _ 2 s Hf Ha Hl2 Hq2).
  reflexivity.
Qed.

(** ** More on CvValues *)

Section CvValuesMore.

Variable beyond : nat -> Z.

(** X7: [write] followed by [read] of the same CV returns the value
    written, the other cells read as before, and the EEPROM keeps its
    size. *)
Theorem read_after_write (ee : list Z) (n : nat) (v : Z) :
  (n < length ee)%nat ->
  read beyond (write beyond ee n v) n = v /\
  (forall m : nat, m <> n -> read beyond (write beyond ee n v) m = read beyond ee m) /\
  length (write beyond ee n v) = length ee.
Proof.
  intros Hn. unfold read, write. rewrite EEPROM_update_insert.
  split; [|split].
  - apply EEPROM_read_Some. now apply list_lookup_insert_eq.
  - intros m Hm. unfold EEPROM_read.
    now rewrite list_lookup_insert_ne by congruence.
  - apply length_insert.
Qed.

Lemma setDefaults_read (d ee : list Z) (i : nat) :
  (max_cvs < length ee)%nat -> (i <= max_cvs)%nat ->
  read beyond (setDefaults beyond d ee) i = d !!! i.
Proof.
  intros Hl Hi. apply EEPROM_read_Some, setDefaults_lookup; [exact Hi|lia].
Qed.

(** X8: [setDefaults()] rewrites exactly the CVs 0..[max_cvs]: each of
    them gets its default, and every EEPROM cell above [max_cvs] keeps its
    content. *)
Theorem setDefaults_exactly_the_cvs (d ee : list Z) :
  (max_cvs < length ee)%nat ->
  length (setDefaults beyond d ee) = length ee /\
  (forall i : nat, (i <= max_cvs)%nat ->
     read beyond (setDefaults beyond d ee) i = d !!! i) /\
  (forall i : nat, (max_cvs < i)%nat ->
     read beyond (setDefaults beyond d ee) i = read beyond ee i).
Proof.
  intros Hl. split; [apply setDefaults_length|]. split.
  - intros i Hi. now apply setDefaults_read.
  - intros i Hi. unfold read, EEPROM_read.
    now rewrite setDefaults_lookup_above.
Qed.

Lemma init_cleared (d : list Z) :
  length d = S max_cvs ->
  <[0%nat := 0x55]> (foldl (fun d i => <[i := 0]> d) d (seq 1 max_cvs)) =
    0x55 :: replicate max_cvs 0.
Proof.
  intros Hd. apply list_eq. intros i. destruct i as [|i].
  - rewrite list_lookup_insert_eq; [reflexivity|].
    rewrite (foldl_insert_seq_length (fun _ => 0)). lia.
  - rewrite list_lookup_insert_ne by discriminate.
    rewrite (foldl_insert_seq_lookup (fun _ => 0)).
    change ((0x55 :: replicate max_cvs 0) !! S i) with (replicate max_cvs 0 !! i).
    destruct (decide (i < max_cvs)%nat) as [Hi|Hi].
    + rewrite lookup_replicate_2 by exact Hi.
      destruct (decide _) as [_|Hn]; [reflexivity|].
      exfalso. apply Hn. rewrite Hd. lia.
    + rewrite (lookup_ge_None_2 (replicate max_cvs 0) i)
        by (rewrite length_replicate; lia).
      destruct (decide _) as [[? ?]|_]; [lia|].
      apply lookup_ge_None. lia.
Qed.

(** [init] from any array is [init] from the cleared one. *)
Lemma init_from_any (dt ver : Z) (d : list Z) :
  length d = S max_cvs ->
  init dt ver d = init dt ver (replicate (S max_cvs) 0).
Proof.
  intros Hd. unfold init.
  rewrite (init_cleared d Hd), (init_cleared (replicate (S max_cvs) 0)); [reflexivity|].
  apply length_replicate.
Qed.

(** X9: [init] fills the whole [defaults] array: the table it leaves does
    not depend on what the array held before, so an adjustment made by
    [myDefaults.init] does not survive a later [init]. *)
Theorem init_overwrites_everything (dt ver : Z) (d1 d2 : list Z) :
  length d1 = S max_cvs ->
  length d2 = S max_cvs ->
  init dt ver d1 = init dt ver d2 /\
  init dt ver (myDefaults_init (init dt ver d1)) = init dt ver d1.
Proof.
  intros H1 H2. split.
  - now rewrite (init_from_any dt ver d1 H1), (init_from_any dt ver d2 H2).
  - rewrite (init_from_any dt ver (myDefaults_init _)),
      <- (init_from_any dt ver d1 H1); [reflexivity|].
    unfold myDefaults_init. now rewrite !length_insert, init_length.
Qed.

End CvValuesMore.

Section StoredAddressFacts.

Variable beyond : nat -> Z.

Lemma land_127 (x : Z) : Z.land x 0x7F = x mod 128.
Proof. change 0x7F with (Z.ones 7). now rewrite Z.land_ones by lia. Qed.

(** X10: the stored address of an accessory decoder.  It is 65535 when
    CV9 is 128 or more and also, with decoder addressing, when the low 3
    bits of CV9 and the low 6 bits of CV1 are all zero (the subtraction of 1
    wraps); otherwise it is [(CV9 & 7) * 64 + (CV1 & 63) - 1], in 0..510,
    with decoder addressing, and [(CV9 & 7) * 256 + CV1], in 0..2047, with
    output addressing. *)
Theorem storedAddress_accessory (ee : list Z) :
  let cv29 := read beyond ee Config in
  let cv1 := read beyond ee myAddrL in
  let cv9 := read beyond ee myAddrH in
  let sa := storedAddress beyond ee in
  Z.testbit cv29 7 = true ->
  0 <= cv1 <= 255 ->
  0 <= cv9 <= 255 ->
  (128 <= cv9 -> sa = 65535) /\
  (cv9 < 128 -> Z.testbit cv29 6 = true ->
     sa = (cv9 mod 8) * 256 + cv1 /\ 0 <= sa <= 2047) /\
  (cv9 < 128 -> Z.testbit cv29 6 = false ->
     (cv9 mod 8 = 0 /\ cv1 mod 64 = 0 -> sa = 65535) /\
     (~ (cv9 mod 8 = 0 /\ cv1 mod 64 = 0) ->
        sa = (cv9 mod 8) * 64 + cv1 mod 64 - 1 /\ 0 <= sa <= 510)).
Proof.
  cbn zeta. intros Hacc H1 H9.
  unfold storedAddress, bitRead. rewrite Hacc.
  set (cv1 := read beyond ee myAddrL) in *.
  set (cv9 := read beyond ee myAddrH) in *.
  rewrite !land_7, land_63, !Z.shiftl_mul_pow2 by lia.
  change (2 ^ 8) with 256. change (2 ^ 6) with 64.
  pose proof (Z.mod_pos_bound cv9 8 ltac:(lia)) as Hm9.
  pose proof (Z.mod_pos_bound cv1 64 ltac:(lia)) as Hm1.
  split; [|split].
  - intros Hh. apply Z.leb_le in Hh. now rewrite Hh.
  - intros Hl Hout. apply Z.leb_gt in Hl. rewrite Hl, Hout.
    unfold uint16. rewrite Z.mod_small by lia. lia.
  - intros Hl Hout. apply Z.leb_gt in Hl. rewrite Hl, Hout. unfold uint16. split.
    + intros [E9 E1]. rewrite E9, E1. reflexivity.
    + intros Hnz. rewrite Z.mod_small by lia. lia.
Qed.

(** X11: the stored address of a multi-function (loco) decoder is never
    0: the short address is [CV1 & 127], the long one
    [(CV17 & 63) * 256 + CV18], and 3 stands in for 0; so it lies in
    1..127 or 1..16383. *)
Theorem storedAddress_loco (ee : list Z) :
  let cv29 := read beyond ee Config in
  let cv1 := read beyond ee myAddrL in
  let cv17 := read beyond ee 17 in
  let cv18 := read beyond ee 18 in
  let sa := storedAddress beyond ee in
  Z.testbit cv29 7 = false ->
  (Z.testbit cv29 5 = false ->
     sa = (if cv1 mod 128 =? 0 then 3 else cv1 mod 128) /\ 1 <= sa <= 127) /\
  (Z.testbit cv29 5 = true -> 0 <= cv18 <= 255 ->
     sa = (if (cv17 mod 64) * 256 + cv18 =? 0 then 3
           else (cv17 mod 64) * 256 + cv18) /\
     1 <= sa <= 16383).
Proof.
  cbn zeta. intros Hacc.
  unfold storedAddress, bitRead. rewrite Hacc.
  rewrite land_127, land_63, Z.shiftl_mul_pow2 by lia. change (2 ^ 8) with 256.
  pose proof (Z.mod_pos_bound (read beyond ee myAddrL) 128 ltac:(lia)) as Hm1.
  pose proof (Z.mod_pos_bound (read beyond ee 17) 64 ltac:(lia)) as Hm17.
  split.
  - intros ->. split; [reflexivity|].
    destruct (Z.eqb_spec (read beyond ee myAddrL mod 128) 0); lia.
  - intros -> H18. unfold uint16. rewrite Z.mod_small by lia.
    split; [reflexivity|].
    destruct (Z.eqb_spec (read beyond ee 17 mod 64 * 256 + read beyond ee 18) 0); lia.
Qed.

Lemma storedAddress_accessory_range (ee : list Z) :
  Z.testbit (read beyond ee Config) 7 = true ->
  0 <= read beyond ee myAddrL <= 255 ->
  0 <= read beyond ee myAddrH <= 255 ->
  (128 <= read beyond ee myAddrH -> storedAddress beyond ee = 65535) /\
  (storedAddress beyond ee = 65535 \/ 0 <= storedAddress beyond ee <= 2047).
Proof.
  intros Hacc H1 H9.
  unfold storedAddress, bitRead. rewrite Hacc.
  set (cv1 := read beyond ee myAddrL) in *.
  set (cv9 := read beyond ee myAddrH) in *.
  rewrite !land_7, land_63, !Z.shiftl_mul_pow2 by lia.
  change (2 ^ 8) with 256. change (2 ^ 6) with 64.
  pose proof (Z.mod_pos_bound cv9 8 ltac:(lia)) as Hm9.
  pose proof (Z.mod_pos_bound cv1 64 ltac:(lia)) as Hm1.
  destruct (Z.leb_spec 128 cv9) as [Hh|Hl].
  - split; [reflexivity|left; reflexivity].
  - split; [lia|]. unfold uint16.
    destruct (Z.testbit (read beyond ee Config) 6).
    + right. rewrite Z.mod_small by lia. lia.
    + destruct (Z.eq_dec (cv9 mod 8 * 64 + cv1 mod 64) 0) as [E|E].
      * left. rewrite E. reflexivity.
      * right. rewrite Z.mod_small by lia. lia.
Qed.

(** X12: for an accessory decoder the two branches of [initPoM] agree:
    the PoM address is [7000 + storedAddress()] on 16 bits; it is 6999
    exactly when the stored address is 65535 (the sum wraps), and
    otherwise lies in 7000..9047. *)
Theorem initPoM_accessory (ee : list Z) :
  let cv29 := read beyond ee Config in
  let cv1 := read beyond ee myAddrL in
  let cv9 := read beyond ee myAddrH in
  let sa := storedAddress beyond ee in
  Z.testbit cv29 7 = true ->
  0 <= cv1 <= 255 ->
  0 <= cv9 <= 255 ->
  initPoM beyond ee = uint16 (offset4Pom + sa) /\
  (initPoM beyond ee = 6999 <-> sa = 65535) /\
  (sa <> 65535 -> initPoM beyond ee = 7000 + sa /\ 7000 <= initPoM beyond ee <= 9047).
Proof.
  cbn zeta. intros Hacc H1 H9.
  destruct (storedAddress_accessory_range ee Hacc H1 H9) as (Hhigh & Hrange).
  assert (Hpom : initPoM beyond ee = uint16 (offset4Pom + storedAddress beyond ee)).
  { unfold initPoM. destruct (addressNotSet beyond ee) eqn:En; [|reflexivity].
    unfold addressNotSet in En. apply Z.eqb_eq in En.
    rewrite Hhigh by (unfold read; rewrite En; lia). reflexivity. }
  rewrite Hpom. unfold uint16, offset4Pom.
  split; [reflexivity|]. split; [split|].
  - intros H. destruct Hrange as [E|R]; [exact E|].
    rewrite Z.mod_small in H by lia. lia.
  - intros ->. reflexivity.
  - intros Hne. destruct Hrange as [E|R]; [contradiction|].
    rewrite Z.mod_small by lia. lia.
Qed.

(** X13: the capture is the inverse of the derivation on the valid CV
    values: when the decoder captures an accessory command that carries its
    own stored address, CV1 and CV9 are written back as they were and the
    EEPROM is unchanged.  (Decoder addressing: CV1 0..63, CV9 0..7, not
    both 0; output addressing: CV1 0..255, CV9 0..7.) *)
Theorem capture_of_own_address
    (cmdType : CmdType) (d : Decoder) (cv29 cv1 cv9 : Z) :
  eeprom d !! Config = Some cv29 ->
  eeprom d !! myAddrL = Some cv1 ->
  eeprom d !! myAddrH = Some cv9 ->
  Z.testbit cv29 7 = true ->
  cmdType = MyAccessoryCmd \/ cmdType = AnyAccessoryCmd ->
  0 <= cv9 <= 7 ->
  (if Z.testbit cv29 6 then 0 <= cv1 <= 255
   else 0 <= cv1 <= 63 /\ ~ (cv1 = 0 /\ cv9 = 0)) ->
  let own := storedAddress beyond (eeprom d) in
  let o := addressProgramming_input beyond cmdType (mkAccessory own own) d in
  restarted o = true /\ eeprom (final o) = eeprom d.
Proof.
  intros H29 H1 H9 Hacc Hcmd Hr9 Hr1 own o. subst o.
  rewrite (addressProgramming_input_accessory beyond _ _ _ cv29 H29 Hacc Hcmd).
  split; [reflexivity|].
  assert (Hsa : own =
    if Z.testbit cv29 6 then cv9 * 256 + cv1 else cv9 * 64 + cv1 - 1).
  { subst own. unfold storedAddress, read, bitRead.
    rewrite (EEPROM_read_Some beyond _ _ _ H29), (EEPROM_read_Some beyond _ _ _ H1),
      (EEPROM_read_Some beyond _ _ _ H9), Hacc.
    destruct (Z.leb_spec 128 cv9) as [?|_]; [lia|].
    rewrite !land_7, land_63, !Z.shiftl_mul_pow2 by lia.
    change (2 ^ 8) with 256. change (2 ^ 6) with 64. unfold uint16.
    destruct (Z.testbit cv29 6).
    - rewrite (Z.mod_small cv9 8), Z.mod_small by lia. reflexivity.
    - rewrite (Z.mod_small cv9 8), (Z.mod_small cv1 64), Z.mod_small by lia.
      reflexivity. }
  cbn [outputAddress decoderAddress]. rewrite Hsa.
  destruct (Z.testbit cv29 6); unfold captured; cbn [final eeprom].
  - assert (E1 : output_cv1 (cv9 * 256 + cv1) = cv1).
    { unfold output_cv1, uint8. rewrite land_255.
      Z.div_mod_to_equations. lia. }
    assert (E9 : output_cv9 (cv9 * 256 + cv1) = cv9).
    { unfold output_cv9, uint8. rewrite land_7, Z.shiftr_div_pow2 by lia.
      change (2 ^ 8) with 256. Z.div_mod_to_equations. lia. }
    rewrite E1, E9.
    rewrite (list_insert_id (eeprom d) myAddrL cv1 H1).
    now rewrite (list_insert_id (eeprom d) myAddrH cv9 H9).
  - assert (Ht : uint16 (cv9 * 64 + cv1 - 1 + 1) = cv9 * 64 + cv1)
      by (unfold uint16; rewrite Z.mod_small; lia).
    assert (E1 : decoder_cv1 (cv9 * 64 + cv1 - 1) = cv1).
    { unfold decoder_cv1. rewrite Ht. unfold uint8. rewrite land_63.
      Z.div_mod_to_equations. lia. }
    assert (E9 : decoder_cv9 (cv9 * 64 + cv1 - 1) = cv9).
    { unfold decoder_cv9. rewrite Ht. unfold uint8.
      rewrite land_7, Z.shiftr_div_pow2 by lia. change (2 ^ 6) with 64.
      Z.div_mod_to_equations. lia. }
    rewrite E1, E9.
    rewrite (list_insert_id (eeprom d) myAddrL cv1 H1).
    now rewrite (list_insert_id (eeprom d) myAddrH cv9 H9).
Qed.

End StoredAddressFacts.

Section FactoryState.

Variable beyond : nat -> Z.

(** The address CVs and the configuration in the table of [init], and with
    the address of MyDefaults.h on top. *)
Lemma init_address_defaults (dt ver : Z) :
  init dt ver defaults0 !!! myAddrL = 0x01 /\
  init dt ver defaults0 !!! myAddrH = 0x80 /\
  init dt ver defaults0 !!! Config = 0x80 /\
  myDefaults_init (init dt ver defaults0) !!! myAddrL = 5 /\
  myDefaults_init (init dt ver defaults0) !!! myAddrH = 2 /\
  myDefaults_init (init dt ver defaults0) !!! Config = 0x80.
Proof. repeat split. Qed.

Lemma address_state_from_cvs (s : list Z) (cv1 cv9 : Z) :
  read beyond s Config = 0x80 ->
  read beyond s myAddrL = cv1 ->
  read beyond s myAddrH = cv9 ->
  addressNotSet beyond s = (cv9 =? 0x80) /\
  storedAddress beyond s =
    (if 128 <=? cv9 then 65535
     else uint16 (Z.shiftl (Z.land cv9 0x07) 6 + Z.land cv1 0x3F - 1)) /\
  initPoM beyond s =
    (if cv9 =? 0x80 then 6999
     else uint16 (offset4Pom +
                  (if 128 <=? cv9 then 65535
                   else uint16 (Z.shiftl (Z.land cv9 0x07) 6 + Z.land cv1 0x3F - 1)))).
Proof.
  intros E29 E1 E9.
  assert (Ens : addressNotSet beyond s = (cv9 =? 0x80))
    by (unfold addressNotSet; fold (read beyond s myAddrH); now rewrite E9).
  assert (Esa : storedAddress beyond s =
    (if 128 <=? cv9 then 65535
     else uint16 (Z.shiftl (Z.land cv9 0x07) 6 + Z.land cv1 0x3F - 1))).
  { unfold storedAddress, bitRead. rewrite E29, E9, E1. reflexivity. }
  split; [exact Ens|]. split; [exact Esa|].
  unfold initPoM. rewrite Ens, Esa. now destruct (cv9 =? 0x80).
Qed.

(** X14: the EEPROM after a factory reset, whatever it held before.  With
    the defaults of [init] the address is not set: [addressNotSet()] is
    true, [storedAddress()] is 65535 and the PoM address is 6999.  With the
    address of MyDefaults.h on top ([CV1 = 5], [CV9 = 2]) the address is
    set: decoder address 132, PoM address 7132. *)
Theorem factory_reset_state (ee d0 : list Z) (dt ver : Z) :
  (max_cvs < length ee)%nat ->
  length d0 = S max_cvs ->
  let plain := setDefaults beyond (init dt ver d0) ee in
  let mine := setDefaults beyond (myDefaults_init (init dt ver d0)) ee in
  (addressNotSet beyond plain = true /\
   storedAddress beyond plain = 65535 /\
   initPoM beyond plain = 6999) /\
  (addressNotSet beyond mine = false /\
   storedAddress beyond mine = 132 /\
   initPoM beyond mine = 7132).
Proof.
  intros Hl Hd. cbn zeta.
  rewrite (init_from_any dt ver d0 Hd), <- (init_from_any dt ver defaults0 eq_refl).
  destruct (init_address_defaults dt ver) as (D1 & D9 & D29 & M1 & M9 & M29).
  pose proof (fun i => setDefaults_read beyond (init dt ver defaults0) ee i Hl) as Hp.
  pose proof (fun i => setDefaults_read beyond
                         (myDefaults_init (init dt ver defaults0)) ee i Hl) as Hm.
  assert (L1 : (myAddrL <= max_cvs)%nat) by (unfold myAddrL, max_cvs; lia).
  assert (L9 : (myAddrH <= max_cvs)%nat) by (unfold myAddrH, max_cvs; lia).
  assert (L29 : (Config <= max_cvs)%nat) by (unfold Config, max_cvs; lia).
  split.
  - apply (address_state_from_cvs _ 0x01 0x80).
    + now rewrite (Hp Config L29).
    + now rewrite (Hp myAddrL L1).
    + now rewrite (Hp myAddrH L9).
  - apply (address_state_from_cvs _ 5 2).
    + now rewrite (Hm Config L29).
    + now rewrite (Hm myAddrL L1).
    + now rewrite (Hm myAddrH L9).
Qed.

End FactoryState.

Lemma read_after_write_witness :
  read (fun _ => 0xFF) (write (fun _ => 0xFF) (erased 512) 40 0x2A) 40 = 0x2A /\
  read (fun _ => 0xFF) (write (fun _ => 0xFF) (erased 512) 40 0x2A) 41 = 0xFF.
Proof.
  destruct (read_after_write (fun _ => 0xFF) (erased 512) 40 0x2A) as (Hr & Ho & _).
  - simpl. lia.
  - split; [exact Hr|]. rewrite Ho by discriminate. reflexivity.
Defined.

Lemma setDefaults_exactly_the_cvs_witness :
  read (fun _ => 0xFF)
    (setDefaults (fun _ => 0xFF) (init 0xC2 10 defaults0)
       (<[100%nat := 0x2A]> (erased 512))) Config = 0x80 /\
  read (fun _ => 0xFF)
    (setDefaults (fun _ => 0xFF) (init 0xC2 10 defaults0)
       (<[100%nat := 0x2A]> (erased 512))) 100 = 0x2A.
Proof.
  destruct (setDefaults_exactly_the_cvs (fun _ => 0xFF) (init 0xC2 10 defaults0)
              (<[100%nat := 0x2A]> (erased 512))) as (_ & Hin & Hout).
  - simpl. unfold max_cvs. lia.
  - split.
    + rewrite Hin by (unfold Config, max_cvs; lia). reflexivity.
    + rewrite Hout by (unfold max_cvs; lia). reflexivity.
Defined.

Lemma init_overwrites_everything_witness :
  init 0xC2 10 (replicate 64 0xFF) = init 0xC2 10 defaults0 /\
  init 0xC2 10 (myDefaults_init (init 0xC2 10 (replicate 64 0xFF))) =
    init 0xC2 10 (replicate 64 0xFF).
Proof.
  apply (init_overwrites_everything 0xC2 10 (replicate 64 0xFF) defaults0);
    reflexivity.
Defined.

Lemma storedAddress_accessory_witness :
  storedAddress (fun _ => 0xFF) (eeprom (addressed_decoder 512)) = 2 * 64 + 5 - 1 /\
  0 <= storedAddress (fun _ => 0xFF) (eeprom (addressed_decoder 512)) <= 510.
Proof.
  destruct (storedAddress_accessory (fun _ => 0xFF) (eeprom (addressed_decoder 512)))
    as (_ & _ & Hdec).
  - reflexivity.
  - vm_compute. split; discriminate.
  - vm_compute. split; discriminate.
  - destruct Hdec as [_ Hnz].
    + vm_compute. reflexivity.
    + reflexivity.
    + apply Hnz. vm_compute. intros [E _]. discriminate.
Defined.

Lemma storedAddress_loco_witness :
  storedAddress (fun _ => 0xFF) (<[Config := 0x00]> (<[myAddrL := 0x80]> (erased 512))) = 3.
Proof.
  destruct (storedAddress_loco (fun _ => 0xFF)
              (<[Config := 0x00]> (<[myAddrL := 0x80]> (erased 512)))) as [Hshort _].
  - reflexivity.
  - destruct Hshort as [E _]; [reflexivity|]. exact E.
Defined.

Lemma initPoM_accessory_witness :
  initPoM (fun _ => 0xFF) (<[myAddrH := 0x81]> (eeprom (fresh_decoder 512))) = 6999 /\
  initPoM (fun _ => 0xFF) (eeprom (addressed_decoder 512)) = 7132.
Proof.
  split.
  - destruct (initPoM_accessory (fun _ => 0xFF)
                (<[myAddrH := 0x81]> (eeprom (fresh_decoder 512)))) as (_ & Hiff & _).
    + reflexivity.
    + vm_compute. split; discriminate.
    + vm_compute. split; discriminate.
    + apply Hiff. reflexivity.
  - destruct (initPoM_accessory (fun _ => 0xFF) (eeprom (addressed_decoder 512)))
      as (_ & _ & Hset).
    + reflexivity.
    + vm_compute. split; discriminate.
    + vm_compute. split; discriminate.
    + destruct Hset as [E _]; [vm_compute; discriminate|]. exact E.
Defined.

Lemma capture_of_own_address_witness :
  let d := addressed_decoder 512 in
  let own := storedAddress (fun _ => 0xFF) (eeprom d) in
  let o := addressProgramming_input (fun _ => 0xFF) MyAccessoryCmd
             (mkAccessory own own) d in
  restarted o = true /\ eeprom (final o) = eeprom d.
Proof.
  apply (capture_of_own_address (fun _ => 0xFF) MyAccessoryCmd
           (addressed_decoder 512) 0x80 5 2).
  - reflexivity.
  - reflexivity.
  - reflexivity.
  - reflexivity.
  - left. reflexivity.
  - lia.
  - simpl. lia.
Defined.

Lemma factory_reset_state_witness :
  let plain := setDefaults (fun _ => 0xFF) (init 0xC2 10 defaults0) (erased 512) in
  let mine := setDefaults (fun _ => 0xFF)
                (myDefaults_init (init 0xC2 10 defaults0)) (erased 512) in
  (addressNotSet (fun _ => 0xFF) plain = true /\
   storedAddress (fun _ => 0xFF) plain = 65535 /\
   initPoM (fun _ => 0xFF) plain = 6999) /\
  (addressNotSet (fun _ => 0xFF) mine = false /\
   storedAddress (fun _ => 0xFF) mine = 132 /\
   initPoM (fun _ => 0xFF) mine = 7132).
Proof.
  apply (factory_reset_state (fun _ => 0xFF) (erased 512) defaults0 0xC2 10).
  - simpl. unfold max_cvs. lia.
  - reflexivity.
Defined.

(** ** More on CvProgramming::processMessage *)

(** The case analysis of [processMessage]: every test of the function is
    decided, and the monad is run. *)
Ltac pm_run :=
  unfold processMessage, bind, cvValues_read, when, ret;
  repeat match goal with
         | |- context [if ?c then _ else _] => destruct c eqn:?
         | |- context [match operation ?c with _ => _ end] =>
             destruct (operation c) eqn:?
         end;
  cbn [bind ret with_eeprom cvValues_write cvValues_setDefaults dcc_sendAck
       reboot set_LedShouldFlash with_led final restarted
       eeprom defaults programmingLed LedShouldFlash events].

Ltac pm_facts :=
  repeat match goal with
         | H : (_ =? _)%nat = true |- _ => apply Nat.eqb_eq in H
         | H : (_ =? _)%nat = false |- _ => apply Nat.eqb_neq in H
         | H : (_ <=? _)%nat = true |- _ => apply Nat.leb_le in H
         | H : (_ <=? _)%nat = false |- _ => apply Nat.leb_gt in H
         | H : (_ =? _) = true |- _ => apply Z.eqb_eq in H
         | H : (_ =? _) = false |- _ => apply Z.eqb_neq in H
         | H : negb _ = true |- _ => apply negb_true_iff in H
         | H : negb _ = false |- _ => apply negb_false_iff in H
         end;
  unfold version, VID, Restart, Search in *.

Section ProcessMessageMore.

Variable E2END : nat.
Variable beyond : nat -> Z.

Lemma processMessage_verifyByte
    (now : Z) (cmdType : CmdType) (cvCmd : CvAccess) (d : Decoder) :
  operation cvCmd = verifyByte ->
  let o := processMessage E2END beyond now cmdType cvCmd d in
  restarted o = false /\
  eeprom (final o) = eeprom d /\
  defaults (final o) = defaults d /\
  programmingLed (final o) = programmingLed d /\
  LedShouldFlash (final o) = LedShouldFlash d /\
  events (final o) =
    events d ++
    (if (number cvCmd <=? E2END)%nat && CmdType_eqb cmdType SmCmd &&
        (read beyond (eeprom d) (number cvCmd) =? value cvCmd)
     then [Ack] else []).
Proof.
  intros Hop. cbn zeta.
  unfold processMessage, bind, cvValues_read, when, ret. rewrite Hop.
  destruct (number cvCmd <=? E2END)%nat, (CmdType_eqb cmdType SmCmd),
    (read beyond (eeprom d) (number cvCmd) =? value cvCmd),
    (CmdType_eqb cmdType MyPomCmd);
    cbn; rewrite ?app_nil_r; repeat split.
Qed.

(** X15: the verify operations ([verifyByte], and [bitManipulation]
    without the write flag) change nothing in the decoder; the one effect
    they can have is the acknowledge, sent exactly when the CV number is
    within the EEPROM, the command is a Service Mode command and the byte
    (or the bit) matches. *)
Theorem verify_changes_nothing
    (now : Z) (cmdType : CmdType) (cvCmd : CvAccess) (d : Decoder) :
  operation cvCmd = verifyByte \/
  (operation cvCmd = bitManipulation /\ writecmd cvCmd = false) ->
  let o := processMessage E2END beyond now cmdType cvCmd d in
  let current := read beyond (eeprom d) (number cvCmd) in
  let matches :=
    match operation cvCmd with
    | verifyByte => current =? value cvCmd
    | _ => verifyBit cvCmd current
    end in
  restarted o = false /\
  eeprom (final o) = eeprom d /\
  defaults (final o) = defaults d /\
  programmingLed (final o) = programmingLed d /\
  LedShouldFlash (final o) = LedShouldFlash d /\
  events (final o) =
    events d ++
    (if (number cvCmd <=? E2END)%nat && CmdType_eqb cmdType SmCmd && matches
     then [Ack] else []).
Proof.
  intros Hop. cbn zeta.
  destruct Hop as [Hop | [Hop Hw]].
  - rewrite Hop. exact (processMessage_verifyByte now cmdType cvCmd d Hop).
  - rewrite Hop. unfold processMessage, bind, cvValues_read, when, ret.
    rewrite Hop, Hw.
    destruct (number cvCmd <=? E2END)%nat, (CmdType_eqb cmdType SmCmd),
      (verifyBit cvCmd (read beyond (eeprom d) (number cvCmd)));
      cbn; rewrite ?app_nil_r; repeat split.
Qed.

(** X16: a [writeByte] to an ordinary CV (not 7, 8, 23 or 25) of the
    EEPROM, in any mode, stores the byte, and a Service Mode [verifyByte]
    of that CV afterwards is acknowledged exactly for the byte written. *)
Theorem write_then_verify
    (now1 now2 : Z) (cmdType : CmdType) (n : nat) (v w : Z)
    (wc wc' bv bv' : bool) (bp bp' : Z) (d : Decoder) :
  (n <= E2END)%nat ->
  (n < length (eeprom d))%nat ->
  n <> version -> n <> VID -> n <> Restart -> n <> Search ->
  let o1 := processMessage E2END beyond now1 cmdType
              (mkCvAccess n writeByte v wc bv bp) d in
  let o2 := processMessage E2END beyond now2 SmCmd
              (mkCvAccess n verifyByte w wc' bv' bp') (final o1) in
  restarted o1 = false /\
  read beyond (eeprom (final o1)) n = v /\
  restarted o2 = false /\
  eeprom (final o2) = eeprom (final o1) /\
  events (final o2) = events (final o1) ++ (if v =? w then [Ack] else []).
Proof.
  intros Hn Hl H7 H8 H25 H23. cbn zeta.
  assert (Ho1 : processMessage E2END beyond now1 cmdType
                  (mkCvAccess n writeByte v wc bv bp) d =
                Running tt
                  (mkDecoder (<[n := v]> (eeprom d)) (defaults d)
                     (programmingLed d) (LedShouldFlash d)
                     (events d ++
                      (if CmdType_eqb cmdType SmCmd then [Ack] else [])))).
  { unfold processMessage, bind, cvValues_read, when, ret. cbn [number operation value].
    apply Nat.leb_le in Hn. rewrite Hn.
    apply Nat.eqb_neq in H7, H8, H25, H23. rewrite H7, H8, H25, H23.
    unfold cvValues_write, with_eeprom, write. rewrite EEPROM_update_insert.
    destruct (CmdType_eqb cmdType SmCmd); cbn; [reflexivity|].
    now rewrite app_nil_r. }
  rewrite Ho1. cbn [final restarted eeprom].
  assert (Hr : read beyond (<[n := v]> (eeprom d)) n = v)
    by (apply EEPROM_read_Some, list_lookup_insert_eq; exact Hl).
  split; [reflexivity|]. split; [exact Hr|].
  destruct (processMessage_verifyByte now2 SmCmd (mkCvAccess n verifyByte w wc' bv' bp')
              (mkDecoder (<[n := v]> (eeprom d)) (defaults d)
                 (programmingLed d) (LedShouldFlash d)
                 (events d ++ (if CmdType_eqb cmdType SmCmd then [Ack] else []))))
    as (R & E & _ & _ & _ & Ev); [reflexivity|].
  cbn zeta in *. cbn [number operation value eeprom events] in *.
  split; [exact R|]. split; [exact E|].
  rewrite Ev, Hr. apply Nat.leb_le in Hn. rewrite Hn. reflexivity.
Qed.

(** X17: what [processMessage] never does.  It never touches the
    [defaults] array; it restarts the decoder exactly for a [writeByte],
    within the EEPROM, of [0x0D] to CV8 or of a non-zero value to CV25; and
    it changes the LED and [LedShouldFlash] for no command other than a
    [writeByte] to CV23. *)
Theorem processMessage_restart_and_frame
    (now : Z) (cmdType : CmdType) (cvCmd : CvAccess) (d : Decoder) :
  let o := processMessage E2END beyond now cmdType cvCmd d in
  defaults (final o) = defaults d /\
  (restarted o = true <->
     (number cvCmd <= E2END)%nat /\ operation cvCmd = writeByte /\
     ((number cvCmd = VID /\ value cvCmd = 0x0D) \/
      (number cvCmd = Restart /\ value cvCmd <> 0))) /\
  (~ ((number cvCmd <= E2END)%nat /\ operation cvCmd = writeByte /\
      number cvCmd = Search) ->
   programmingLed (final o) = programmingLed d /\
   LedShouldFlash (final o) = LedShouldFlash d).
Proof.
  cbn zeta. pm_run; pm_facts;
    (split; [reflexivity|]); (split; [split|]);
    try (intros H; discriminate H);
    try (intros (? & ? & [[? ?] | [? ?]]); (congruence || lia));
    try (intros _; repeat split; (congruence || lia));
    try (intros _; split; reflexivity);
    try (intros Hn; exfalso; apply Hn; repeat split; (congruence || lia)).
Qed.

(** X18: the acknowledge.  A command adds to the log at most one [Ack],
    followed by [Reboot] when it restarts the decoder, and nothing else;
    and an [Ack] is sent only for a Service Mode command whose CV number
    is within the EEPROM: Programming on Main is never acknowledged. *)
Theorem acknowledge_only_in_service_mode
    (now : Z) (cmdType : CmdType) (cvCmd : CvAccess) (d : Decoder) :
  let o := processMessage E2END beyond now cmdType cvCmd d in
  exists ack : bool,
    events (final o) =
      events d ++ (if ack then [Ack] else []) ++
      (if restarted o then [Reboot] else []) /\
    (ack = true -> cmdType = SmCmd /\ (number cvCmd <= E2END)%nat).
Proof.
  cbn zeta.
  assert (Hsm : CmdType_eqb cmdType SmCmd = true -> cmdType = SmCmd)
    by (destruct cmdType; (reflexivity || discriminate)).
  pm_run; pm_facts; rewrite <- ?app_assoc;
    first
      [ exists false; split; [now rewrite ?app_nil_r | discriminate]
      | exists true; split; [reflexivity | intros _; split; [now apply Hsm | assumption]] ].
Qed.

(** X19: the CVs with a meaning of their own are not stored by
    [writeByte]: a write to CV7, CV23 or CV25, or to CV8 with a value other
    than [0x0D], leaves the EEPROM as it is and is not acknowledged, in
    Service Mode either; the log grows by [Reboot] alone, and only when
    the decoder restarts. *)
Theorem special_cvs_are_not_stored
    (now : Z) (cmdType : CmdType) (cvCmd : CvAccess) (d : Decoder) :
  operation cvCmd = writeByte ->
  number cvCmd = version \/ number cvCmd = Search \/ number cvCmd = Restart \/
  (number cvCmd = VID /\ value cvCmd <> 0x0D) ->
  let o := processMessage E2END beyond now cmdType cvCmd d in
  eeprom (final o) = eeprom d /\
  events (final o) = events d ++ (if restarted o then [Reboot] else []).
Proof.
  intros Hop Hn. cbn zeta.
  unfold processMessage, bind, cvValues_read, when, ret. rewrite Hop.
  destruct (number cvCmd <=? E2END)%nat; [|cbn; now rewrite app_nil_r].
  destruct Hn as [-> | [-> | [-> | [-> Hv]]]]; cbn [Nat.eqb version VID Restart Search].
  - cbn. now rewrite app_nil_r.
  - destruct (negb (value cvCmd =? 0)); cbn; now rewrite app_nil_r.
  - destruct (negb (value cvCmd =? 0)); cbn; [split; reflexivity|].
    now rewrite app_nil_r.
  - apply Z.eqb_neq in Hv. rewrite Hv. cbn. now rewrite app_nil_r.
Qed.

(** X20: the search function.  A [writeByte] of a non-zero value to CV23
    starts the fast flashing of the LED, which no run of [update()] calls
    ends; a [writeByte] of 0 to CV23 switches the LED off, and no run of
    [update()] calls lights it again.  [LedShouldFlash] follows the
    value. *)
Theorem search_blinks_until_cleared
    (now : Z) (cmdType : CmdType) (v : Z) (wc bv : bool) (bp : Z) (d : Decoder) :
  (Search <= E2END)%nat ->
  let o := processMessage E2END beyond now cmdType
             (mkCvAccess Search writeByte v wc bv bp) d in
  let led := programmingLed (final o) in
  restarted o = false /\
  LedShouldFlash (final o) = negb (v =? 0) /\
  (v <> 0 ->
     led = flashFast now (programmingLed d) /\ ledIsOn led = true /\
     forall clock : list Z, mode (updates clock led) = neverStopFlashing) /\
  (v = 0 ->
     led = turn_off (programmingLed d) /\
     forall clock : list Z,
       updates clock led = led /\ ledIsOn (updates clock led) = false).
Proof.
  intros Hs. cbn zeta.
  unfold processMessage, bind, cvValues_read, when, ret.
  cbn [number operation value].
  apply Nat.leb_le in Hs. rewrite Hs. cbn [Nat.eqb Search version VID Restart].
  destruct (Z.eqb_spec v 0) as [->|Hv]; cbn.
  - split; [reflexivity|]. split; [reflexivity|]. split; [intros H; contradiction|].
    intros _. split; [reflexivity|]. intros clock.
    rewrite updates_steady by (right; destruct (programmingLed d); reflexivity).
    split; [reflexivity|].
    destruct (programmingLed d) as [on ? ? ? ? ? ? ? ? ?]. unfold ledIsOn. cbn.
    now destruct on.
  - split; [reflexivity|]. split; [reflexivity|]. split; [|intros H; contradiction].
    intros _. split; [reflexivity|]. split.
    + destruct (programmingLed d). unfold ledIsOn. cbn. apply eqb_reflx.
    + intros clock.
      assert (H0 : mode (flashFast now (programmingLed d)) = neverStopFlashing)
        by (destruct (programmingLed d); reflexivity).
      revert H0. generalize (flashFast now (programmingLed d)).
      induction clock as [|t rest IH]; intros s Hm; [exact Hm|].
      change (updates (t :: rest) s) with (updates rest (update t s)).
      apply IH. now apply update_mode_continuous.
Qed.

End ProcessMessageMore.

(** ** More on DccTimer *)

(** X21: [getElapsed()] and [getRemain()] read the clock twice: [now1]
    in [running()], [now2] in the value they return.  When the timer does
    not run at [now1] (stopped or elapsed) [getRemain()] is 0 and
    [getElapsed()] is the duration.  When it runs at [now1] the two values
    add up to the duration plus 1 on 32 bits; if it still runs at [now2],
    [getRemain()] is the time left, between 1 and the duration, and
    [getElapsed()] is one more than the time passed; if the clock has
    reached the expiry between the two reads, [getRemain()] is 0 and
    [getElapsed()] is the duration plus 1; and if it has gone past it, the
    subtraction in [getRemain()] wraps to [2^32] less the overrun. *)
Theorem timer_remaining_and_elapsed (now1 now2 : Z) (t : DccTimer) :
  0 <= runTime t < 4294967296 ->
  (running now1 t = false ->
     getRemain now1 now2 t = 0 /\ getElapsed now1 now2 t = runTime t) /\
  (running now1 t = true ->
     uint32 (getElapsed now1 now2 t + getRemain now1 now2 t) =
       uint32 (runTime t + 1) /\
     (running now2 t = true ->
        1 <= getRemain now1 now2 t <= runTime t /\
        getElapsed now1 now2 t = uint32 (now2 - startTime t) + 1 /\
        getElapsed now1 now2 t + getRemain now1 now2 t = runTime t + 1) /\
     (uint32 (now2 - startTime t) = runTime t ->
        getRemain now1 now2 t = 0 /\
        getElapsed now1 now2 t = uint32 (runTime t + 1)) /\
     (runTime t < uint32 (now2 - startTime t) ->
        getRemain now1 now2 t =
          4294967296 - (uint32 (now2 - startTime t) - runTime t))).
Proof.
  intros Hr. unfold getRemain, getElapsed.
  pose proof (uint32_nonneg (now2 - startTime t)) as Hpos.
  assert (Hmax : uint32 (now2 - startTime t) < 4294967296)
    by (unfold uint32; apply Z.mod_pos_bound; lia).
  split; intros Hrun; rewrite Hrun; [split; reflexivity|].
  split; [|split; [|split]].
  - unfold uint32. rewrite <- Zplus_mod. f_equal. lia.
  - intros Hrun2. unfold running in Hrun2.
    destruct (notExpired t); [|discriminate].
    destruct (Z.ltb_spec (uint32 (now2 - startTime t)) (runTime t)) as [Hlt|];
      [|discriminate].
    assert (E1 : uint32 (uint32 (now2 - startTime t) + 1) =
                 uint32 (now2 - startTime t) + 1).
    { unfold uint32 at 1. apply Z.mod_small. lia. }
    assert (E2 : uint32 (runTime t - uint32 (now2 - startTime t)) =
                 runTime t - uint32 (now2 - startTime t)).
    { unfold uint32 at 1. apply Z.mod_small. lia. }
    rewrite E1, E2. lia.
  - intros ->. rewrite Z.sub_diag. split; reflexivity.
  - intros Hover. unfold uint32 at 1.
    symmetry. apply Z.mod_unique with (q := -1); lia.
Qed.

(** X22: a timer never both runs and reports expiry at the same clock
    reading; while it is armed exactly one of the two holds; and once
    [expired()] has answered [true] the timer does not run any more. *)
Theorem running_or_expired (now : Z) (t : DccTimer) :
  running now t && fst (expired now t) = false /\
  (notExpired t = true -> running now t = negb (fst (expired now t))) /\
  (notExpired t = false -> running now t = false /\ fst (expired now t) = false) /\
  (fst (expired now t) = true ->
     forall now' now'' : Z,
       running now' (snd (expired now t)) = false /\
       getRemain now' now'' (snd (expired now t)) = 0).
Proof.
  unfold running, expired, getRemain, running.
  destruct (notExpired t) eqn:En.
  - destruct (Z.ltb_spec (uint32 (now - startTime t)) (runTime t)) as [Hlt|Hge];
      destruct (Z.leb_spec (runTime t) (uint32 (now - startTime t))) as [Hle|Hgt];
      try lia; cbn; rewrite ?En; repeat split; try discriminate.
  - cbn. rewrite En. repeat split; discriminate.
Qed.

(** ** More on DccButton *)

Lemma DccButton_read_steady (now port : Z) (b : DccButton) :
  pinVal (m_invert b) (m_bit b) port = m_state b ->
  let b' := DccButton_read now port b in
  m_state b' = m_state b /\ m_lastChange b' = m_lastChange b /\
  m_changed b' = false /\ m_time b' = now /\
  m_invert b' = m_invert b /\ m_bit b' = m_bit b.
Proof.
  intros Hp. unfold DccButton_read. cbn zeta. rewrite Hp.
  destruct (uint32 (now - m_lastChange b) <? m_dbTime b); cbn.
  - repeat split.
  - rewrite eqb_reflx. cbn. repeat split.
Qed.

(** X23: as long as the input keeps the level of the debounced state, no
    [read()] changes the state or the time of the last change, and none
    reports a change; after each of them [pressedFor(ms)] and
    [releasedFor(ms)] tell whether [ms] have passed between the last
    change and that read. *)
Theorem steady_input_keeps_state (samples : list (Z * Z)) (b : DccButton) :
  (forall now port : Z,
     In (now, port) samples -> pinVal (m_invert b) (m_bit b) port = m_state b) ->
  forall (k : nat) (now port : Z) (s : DccButton),
    samples !! k = Some (now, port) ->
    read_all samples b !! k = Some s ->
    m_state s = m_state b /\
    m_lastChange s = m_lastChange b /\
    m_changed s = false /\
    (forall ms : Z,
       pressedFor ms s = m_state b && (ms <=? uint32 (now - m_lastChange b)) /\
       releasedFor ms s = negb (m_state b) && (ms <=? uint32 (now - m_lastChange b))).
Proof.
  revert b. induction samples as [|[n p] rest IH]; intros b Hin k now port s Hk Hs.
  - discriminate.
  - destruct (DccButton_read_steady n p b) as (Hst & Hlc & Hch & Htm & Hinv & Hbit).
    { apply (Hin n p). left. reflexivity. }
    cbn zeta in *. destruct k as [|k]; simpl in *.
    + injection Hk as <- <-. injection Hs as <-.
      split; [exact Hst|]. split; [exact Hlc|]. split; [exact Hch|].
      intros ms. unfold pressedFor, releasedFor. now rewrite Hst, Hlc, Htm.
    + assert (Hin' : forall now' port' : Z,
                In (now', port') rest ->
                pinVal (m_invert (DccButton_read n p b))
                  (m_bit (DccButton_read n p b)) port' =
                m_state (DccButton_read n p b)).
      { intros now' port' Hi. rewrite Hinv, Hbit, Hst.
        apply (Hin now' port'). right. exact Hi. }
      rewrite <- Hst, <- Hlc.
      exact (IH (DccButton_read n p b) Hin' k now port s Hk Hs).
Qed.

(** ** ToggleButton *)

Lemma last_nonempty_default {A : Type} (x : A) (c : list A) (d d' : A) :
  List.last (x :: c) d = List.last (x :: c) d'.
Proof.
  revert x. induction c as [|y c IH]; intros x; [reflexivity|].
  change (List.last (y :: c) d = List.last (y :: c) d'). apply IH.
Qed.

Lemma ToggleButton_reads_button (samples : list (Z * Z)) (tb : ToggleButton) :
  button (ToggleButton_reads samples tb) =
    List.last (read_all samples (button tb)) (button tb).
Proof.
  revert tb. induction samples as [|[n p] rest IH]; intros tb; [reflexivity|].
  change (ToggleButton_reads ((n, p) :: rest) tb)
    with (ToggleButton_reads rest (ToggleButton_read n p tb)).
  rewrite IH.
  assert (Hb : button (ToggleButton_read n p tb) = DccButton_read n p (button tb)).
  { unfold ToggleButton_read. cbn zeta. now destruct (wasPressed _). }
  rewrite Hb. cbn [read_all].
  destruct (read_all rest (DccButton_read n p (button tb))) as [|x r];
    [reflexivity|].
  change (List.last (DccButton_read n p (button tb) :: x :: r) (button tb))
    with (List.last (x :: r) (button tb)).
  apply last_nonempty_default.
Qed.

(** X24: the toggle button flips its state once for each accepted press
    edge: after a sequence of [read()] calls the toggle state is the
    initial one when the number of reads that accepted a press is even, and
    the opposite when it is odd; [changed()] tells whether the last read
    accepted a press. *)
Theorem toggle_follows_press_parity (samples : list (Z * Z)) (tb : ToggleButton) :
  let presses := List.filter wasPressed (read_all samples (button tb)) in
  toggleState (ToggleButton_reads samples tb) =
    xorb (toggleState tb) (Nat.odd (length presses)) /\
  (samples <> [] ->
   changed (ToggleButton_reads samples tb) =
     wasPressed (button (ToggleButton_reads samples tb))) /\
  button (ToggleButton_reads samples tb) =
    List.last (read_all samples (button tb)) (button tb).
Proof.
  cbn zeta. unfold toggleState, changed.
  split; [|split; [|apply ToggleButton_reads_button]].
  - revert tb. induction samples as [|[n p] rest IH]; intros tb.
    + cbn. now destruct (m_toggleState tb).
    + change (ToggleButton_reads ((n, p) :: rest) tb)
        with (ToggleButton_reads rest (ToggleButton_read n p tb)).
      rewrite IH. cbn [read_all List.filter].
      assert (Hb : button (ToggleButton_read n p tb) = DccButton_read n p (button tb)).
      { unfold ToggleButton_read. cbn zeta. now destruct (wasPressed _). }
      rewrite Hb. unfold ToggleButton_read at 1. cbn zeta.
      destruct (wasPressed (DccButton_read n p (button tb))); cbn [m_toggleState length].
      * rewrite Nat.odd_succ, <- Nat.negb_odd.
        now destruct (m_toggleState tb), (Nat.odd _).
      * reflexivity.
  - revert tb. induction samples as [|[n p] rest IH]; intros tb Hne; [contradiction|].
    change (ToggleButton_reads ((n, p) :: rest) tb)
      with (ToggleButton_reads rest (ToggleButton_read n p tb)).
    destruct rest as [|s rest'].
    + cbn. unfold ToggleButton_read. cbn zeta.
      destruct (wasPressed (DccButton_read n p (button tb))) eqn:E; cbn; now rewrite E.
    + apply IH. discriminate.
Qed.

(** ** The programming button and the start-up *)

Section BoardFacts.

Variable beyond : nat -> Z.

Lemma addressProgramming_input_passed_over
    (cmdType : CmdType) (accCmd : Accessory) (d : Decoder) :
  passed_over beyond (eeprom d) (Some (cmdType, accCmd)) ->
  addressProgramming_input beyond cmdType accCmd d = Running tt d.
Proof.
  intros Hp. unfold addressProgramming_input, bind, cvValues_read, bitRead, when, ret.
  destruct Hp as [[H1 H2] | Hb].
  - assert (Hc : (CmdType_eqb cmdType MyAccessoryCmd
                  || CmdType_eqb cmdType AnyAccessoryCmd) = false)
      by (destruct cmdType; try reflexivity; contradiction).
    rewrite Hc, andb_false_r. reflexivity.
  - rewrite Hb. reflexivity.
Qed.

Lemma last_cons_head {A : Type} (x : A) (l : list A) (d : A) :
  List.last (x :: l) d = List.last l x.
Proof.
  destruct l as [|a l]; [reflexivity|].
  change (List.last (a :: l) d = List.last (a :: l) x).
  apply last_nonempty_default.
Qed.

(** The passes of the capture loop in which nothing is captured and the
    button stays released: only the LED and the button move on. *)
Lemma capture_loop_idle (idle more : list LoopInput) (b : Board) :
  Forall (fun i => passed_over beyond (eeprom (decoder b)) (dcc_input i)) idle ->
  Forall (fun s => m_state s = false)
    (read_all (map (fun i => (btn_now i, btn_port i)) idle) (onBoardButton b)) ->
  capture_loop beyond (idle ++ more) b =
    capture_loop beyond more
      (set_onBoardButton
         (List.last
            (read_all (map (fun i => (btn_now i, btn_port i)) idle) (onBoardButton b))
            (onBoardButton b))
         (set_decoder
            (set_programmingLed
               (updates (map led_now idle) (programmingLed (decoder b)))
               (decoder b)) b)).
Proof.
  revert b. induction idle as [|i idle IH]; intros b Hp Hb.
  - destruct b as [[? ? ? ? ?] ? ? ? ? ?]. reflexivity.
  - apply Forall_cons in Hp as [Hp1 Hp]. cbn [map read_all] in Hb.
    apply Forall_cons in Hb as [Hb1 Hb].
    cbn [app capture_loop].
    set (b1 := set_decoder
                 (set_programmingLed
                    (update (led_now i) (programmingLed (decoder b))) (decoder b)) b).
    assert (Hin : match dcc_input i with
                  | Some (cmdType, accCmd) =>
                      on_decoder (addressProgramming_input beyond cmdType accCmd) b1
                  | None => Returned b1
                  end = Returned b1).
    { destruct (dcc_input i) as [[ct acc]|]; [|reflexivity].
      unfold on_decoder.
      rewrite addressProgramming_input_passed_over.
      - subst b1. destruct b as [[? ? ? ? ?] ? ? ? ? ?]. reflexivity.
      - subst b1. destruct b as [[? ? ? ? ?] ? ? ? ? ?]. exact Hp1. }
    rewrite Hin.
    assert (Hrel : isPressed
                     (onBoardButton
                        (set_onBoardButton
                           (DccButton_read (btn_now i) (btn_port i) (onBoardButton b1))
                           b1)) = false).
    { subst b1. destruct b as [[? ? ? ? ?] ? ? ? ? ?]. exact Hb1. }
    rewrite Hrel. rewrite IH.
    + cbn [map read_all].
      rewrite (last_cons_head
                 (DccButton_read (btn_now i) (btn_port i) (onBoardButton b))
                 _ (onBoardButton b)).
      subst b1. destruct b as [[ee df led fl ev] btn tl pa aa mm]. reflexivity.
    + subst b1. destruct b as [[? ? ? ? ?] ? ? ? ? ?]. exact Hp.
    + subst b1. destruct b as [[? ? ? ? ?] ? ? ? ? ?]. exact Hb.
Qed.

End BoardFacts.

Section BoardTheorems.

Variable beyond : nat -> Z.

(** X25: the long press.  When the button is pressed, the input still
    shows it pressed and at least 5000 ms have passed since its last
    change, [checkForNewDecoderAddress] restores the defaults in the
    EEPROM, leaves the LED off and restarts the decoder, without waiting
    for any DCC command; so does [CommonDecHwFunctions::update] when its 20
    ms have passed. *)
Theorem long_press_restores_defaults
    (TNow now port flash_now : Z) (passes : list LoopInput) (last : Z * Z)
    (led_time : Z) (b : Board) :
  m_state (onBoardButton b) = true ->
  pinVal (m_invert (onBoardButton b)) (m_bit (onBoardButton b)) port = true ->
  5000 <= uint32 (now - m_lastChange (onBoardButton b)) ->
  let d := decoder b in
  let reset :=
    mkDecoder (setDefaults beyond (defaults d) (eeprom d)) (defaults d)
      (turn_off (turn_on (programmingLed d))) (LedShouldFlash d)
      (events d ++ [Reboot]) in
  checkForNewDecoderAddress beyond now port flash_now passes last b =
    Rebooted (set_decoder reset
                (set_onBoardButton (DccButton_read now port (onBoardButton b)) b)) /\
  (20 <= uint32 (TNow - TLast b) ->
   CommonDecHwFunctions_update beyond TNow now port flash_now passes last led_time b =
     Rebooted (set_decoder reset
                 (set_onBoardButton (DccButton_read now port (onBoardButton b))
                    (set_TLast TNow b)))) /\
  ledIsOn (programmingLed reset) = false /\
  mode (programmingLed reset) = alwaysOff.
Proof.
  intros Hst Hpin Hhold d reset.
  assert (Hcheck : forall b0 : Board,
            onBoardButton b0 = onBoardButton b -> decoder b0 = decoder b ->
            checkForNewDecoderAddress beyond now port flash_now passes last b0 =
              Rebooted (set_decoder reset
                          (set_onBoardButton
                             (DccButton_read now port (onBoardButton b)) b0))).
  { intros b0 Hb Hd.
    destruct (DccButton_read_steady now port (onBoardButton b))
      as (Hs & Hlc & _ & Htm & _); [now rewrite Hpin, Hst|].
    cbn zeta in *.
    unfold checkForNewDecoderAddress. rewrite Hb.
    cbn [onBoardButton set_onBoardButton]. unfold isPressed. rewrite Hs, Hst.
    cbn [onBoardButton set_decoder set_onBoardButton].
    unfold pressedFor. rewrite Hs, Hst, Htm, Hlc.
    apply Z.leb_le in Hhold. rewrite Hhold. cbn [andb].
    subst reset d. rewrite <- Hd.
    destruct b0 as [[ee df led fl ev] btn tl pa aa mm]. reflexivity. }
  split; [apply Hcheck; reflexivity|]. split.
  - intros H20. unfold CommonDecHwFunctions_update.
    apply Z.leb_le in H20. rewrite H20.
    rewrite (Hcheck (set_TLast TNow b)) by (destruct b; reflexivity).
    reflexivity.
  - subst reset. cbn [programmingLed].
    destruct (programmingLed d) as [on ? ? ? ? ? ? ? ? ?]. unfold ledIsOn. cbn.
    split; [now destruct on|reflexivity].
Qed.

(** X26: the capture is cancelled by the button.  When the passes of the
    loop bring no accessory command to capture and the button is read as
    released in all of them but the last, in which it is read as pressed,
    [addressProgramming] returns: nothing was written to the EEPROM,
    nothing was acknowledged, the decoder was not restarted, and the LED is
    off. *)
Theorem capture_cancelled_by_button
    (flash_now : Z) (idle : list LoopInput) (stop : LoopInput) (last : Z * Z)
    (b : Board) :
  let samples := map (fun i => (btn_now i, btn_port i)) idle in
  let released := List.last (read_all samples (onBoardButton b)) (onBoardButton b) in
  Forall (fun i => passed_over beyond (eeprom (decoder b)) (dcc_input i))
    (idle ++ [stop]) ->
  Forall (fun s => m_state s = false) (read_all samples (onBoardButton b)) ->
  m_state (DccButton_read (btn_now stop) (btn_port stop) released) = true ->
  exists b' : Board,
    addressProgramming beyond flash_now (idle ++ [stop]) last b = Returned b' /\
    eeprom (decoder b') = eeprom (decoder b) /\
    defaults (decoder b') = defaults (decoder b) /\
    events (decoder b') = events (decoder b) /\
    LedShouldFlash (decoder b') = LedShouldFlash (decoder b) /\
    mode (programmingLed (decoder b')) = alwaysOff /\
    ledIsOn (programmingLed (decoder b')) = false /\
    onBoardButton b' =
      DccButton_read (fst last) (snd last)
        (DccButton_read (btn_now stop) (btn_port stop) released).
Proof.
  intros samples released Hp Hrel Hstop.
  apply Forall_app in Hp as [Hp Hps]. apply Forall_cons in Hps as [Hps _].
  unfold addressProgramming.
  set (b0 := set_decoder
               (set_programmingLed
                  (flashFast flash_now (programmingLed (decoder b))) (decoder b)) b).
  assert (E0 : eeprom (decoder b0) = eeprom (decoder b))
    by (destruct b as [[? ? ? ? ?] ? ? ? ? ?]; reflexivity).
  assert (B0 : onBoardButton b0 = onBoardButton b)
    by (destruct b as [[? ? ? ? ?] ? ? ? ? ?]; reflexivity).
  rewrite (capture_loop_idle beyond idle [stop] b0);
    [|now rewrite E0|now rewrite B0].
  rewrite B0. fold samples. fold released.
  cbn [capture_loop].
  set (b1 := set_decoder _ _).
  assert (Hin : match dcc_input stop with
                | Some (cmdType, accCmd) =>
                    on_decoder (addressProgramming_input beyond cmdType accCmd) b1
                | None => Returned b1
                end = Returned b1).
  { destruct (dcc_input stop) as [[ct acc]|]; [|reflexivity].
    unfold on_decoder. rewrite addressProgramming_input_passed_over.
    - subst b1 b0. destruct b as [[? ? ? ? ?] ? ? ? ? ?]. reflexivity.
    - subst b1 b0. destruct b as [[? ? ? ? ?] ? ? ? ? ?]. exact Hps. }
  rewrite Hin.
  assert (Hb1 : onBoardButton b1 = released)
    by (subst b1 b0; destruct b as [[? ? ? ? ?] ? ? ? ? ?]; reflexivity).
  cbn [onBoardButton set_onBoardButton]. unfold isPressed. rewrite Hb1, Hstop.
  eexists. split; [reflexivity|].
  subst b1 b0. destruct b as [[ee df led fl ev] btn tl pa aa mm].
  cbn [decoder eeprom defaults events LedShouldFlash programmingLed onBoardButton
       set_decoder set_onBoardButton set_programmingLed].
  repeat split.
  - destruct (update _ _) as [on ? ? ? ? ? ? ? ? ?]. unfold ledIsOn. cbn.
    now destruct on.
Qed.

(** X27: the capture takes the first accessory command.  After any
    number of passes without one, in which the button stays released, an
    accessory command (for this decoder or for any) received by an
    accessory decoder is stored as the new address, by the addressing mode
    of CV29, and the decoder restarts: the passes after it and the button
    do not matter any more. *)
Theorem capture_takes_first_accessory_command
    (flash_now : Z) (idle : list LoopInput) (hit : LoopInput)
    (rest : list LoopInput) (last : Z * Z)
    (cmdType : CmdType) (accCmd : Accessory) (cv29 : Z) (b : Board) :
  let samples := map (fun i => (btn_now i, btn_port i)) idle in
  Forall (fun i => passed_over beyond (eeprom (decoder b)) (dcc_input i)) idle ->
  Forall (fun s => m_state s = false) (read_all samples (onBoardButton b)) ->
  dcc_input hit = Some (cmdType, accCmd) ->
  cmdType = MyAccessoryCmd \/ cmdType = AnyAccessoryCmd ->
  eeprom (decoder b) !! Config = Some cv29 ->
  Z.testbit cv29 7 = true ->
  exists b' : Board,
    addressProgramming beyond flash_now (idle ++ hit :: rest) last b = Rebooted b' /\
    eeprom (decoder b') =
      (if Z.testbit cv29 6
       then <[myAddrH := output_cv9 (outputAddress accCmd)]>
              (<[myAddrL := output_cv1 (outputAddress accCmd)]> (eeprom (decoder b)))
       else <[myAddrH := decoder_cv9 (decoderAddress accCmd)]>
              (<[myAddrL := decoder_cv1 (decoderAddress accCmd)]> (eeprom (decoder b)))) /\
    events (decoder b') = events (decoder b) ++ [Reboot] /\
    defaults (decoder b') = defaults (decoder b).
Proof.
  intros samples Hp Hrel Hhit Hcmd H29 Hacc.
  unfold addressProgramming.
  set (b0 := set_decoder
               (set_programmingLed
                  (flashFast flash_now (programmingLed (decoder b))) (decoder b)) b).
  assert (E0 : eeprom (decoder b0) = eeprom (decoder b))
    by (destruct b as [[? ? ? ? ?] ? ? ? ? ?]; reflexivity).
  assert (B0 : onBoardButton b0 = onBoardButton b)
    by (destruct b as [[? ? ? ? ?] ? ? ? ? ?]; reflexivity).
  rewrite (capture_loop_idle beyond idle (hit :: rest) b0);
    [|now rewrite E0|now rewrite B0].
  cbn [capture_loop]. rewrite Hhit.
  set (b1 := set_decoder _ (set_onBoardButton _ _)).
  assert (E1 : eeprom (decoder b1) = eeprom (decoder b))
    by (subst b1 b0; destruct b as [[? ? ? ? ?] ? ? ? ? ?]; reflexivity).
  unfold on_decoder.
  rewrite (addressProgramming_input_accessory beyond cmdType accCmd (decoder b1) cv29);
    [|now rewrite E1|exact Hacc|exact Hcmd].
  eexists. split; [reflexivity|].
  subst b1 b0. destruct b as [[ee df led fl ev] btn tl pa aa mm].
  destruct (Z.testbit cv29 6); repeat split.
Qed.

(** X28: the start-up.  [CommonDecHwFunctions::init] fills an EEPROM
    without the marker with the defaults and leaves an EEPROM that has the
    marker as it is.  Afterwards the LED is lit and holds the pattern of
    [flashSlow()] when the address is not set (on 5, off 5, 1 flash, pause
    5, without end: lit for 5 steps and dark for 5, again and again) and
    the pattern of [start_up()] otherwise (on 2, off 2, 2 flashes, once:
    lit 2 steps, dark 2, lit 2, then off for good); the first
    [start_up()] of the function leaves no trace.  The DCC library has the
    stored address, the PoM address and the command station of CV19, and
    nothing was acknowledged or restarted. *)
Theorem init_prepares_the_decoder (i : InitInput) (b : Board) :
  let d := decoder b in
  let b' := CommonDecHwFunctions_init beyond i b in
  let ee' := eeprom (decoder b') in
  let led' := programmingLed (decoder b') in
  (notInitialised beyond (eeprom d) = false -> ee' = eeprom d) /\
  (notInitialised beyond (eeprom d) = true ->
     ee' = setDefaults beyond (defaults d) (eeprom d)) /\
  ((0 < length (eeprom d))%nat -> defaults d !!! 0%nat = 0x55 ->
     notInitialised beyond ee' = false) /\
  mode led' =
    (if addressNotSet beyond ee' then neverStopFlashing else singleFlashSerie) /\
  ledIsOn led' = true /\
  (addressNotSet beyond ee' = true ->
     led' = mkFlashLed true true 5 5 5 1 neverStopFlashing (pattern_now i) 1 5 /\
     (forall clock : list Z, mode (updates clock led') = neverStopFlashing) /\
     (forall clock : list Z,
        length clock = 10%nat -> qualifying (pattern_now i) clock ->
        lit_trace clock led' =
          [true; true; true; true; false; false; false; false; false; true] /\
        updates clock led' =
          mkFlashLed true true 5 5 5 1 neverStopFlashing (List.last clock 0) 1 5)) /\
  (addressNotSet beyond ee' = false ->
     led' = mkFlashLed true true 2 2 (flashPause (programmingLed d)) 2
              singleFlashSerie (pattern_now i) 1 2 /\
     (forall clock extra : list Z,
        length clock = 6%nat -> qualifying (pattern_now i) (clock ++ extra) ->
        lit_trace (clock ++ extra) led' =
          [true; false; false; true; true; false] ++
          replicate (length extra) false /\
        mode (updates (clock ++ extra) led') = alwaysOff /\
        ledIsOn (updates (clock ++ extra) led') = false)) /\
  accAddress b' = storedAddress beyond ee' /\
  pomAddress b' = initPoM beyond ee' /\
  myMaster b' = read beyond ee' CmdStation /\
  events (decoder b') = events d /\
  defaults (decoder b') = defaults d /\
  TLast b' = last_now i.
Proof.
  cbn zeta. unfold CommonDecHwFunctions_init.
  cbn [decoder eeprom programmingLed events defaults accAddress pomAddress
       myMaster TLast].
  set (led1 := start_up (start_up_now i)
                 (FlashLed_attach false (led_attach_now i)
                    (programmingLed (decoder b)))).
  assert (Hslow : forall t : Z,
            flashSlow t led1 =
              mkFlashLed true true 5 5 5 1 neverStopFlashing t 1 5)
    by (intros t; subst led1; destruct (programmingLed (decoder b)); reflexivity).
  assert (Hstart : forall t : Z,
            start_up t led1 =
              mkFlashLed true true 2 2 (flashPause (programmingLed (decoder b))) 2
                singleFlashSerie t 1 2)
    by (intros t; subst led1; destruct (programmingLed (decoder b)); reflexivity).
  assert (Hee :
    (notInitialised beyond (eeprom (decoder b)) = false ->
       (if notInitialised beyond (eeprom (decoder b))
        then setDefaults beyond (defaults (decoder b)) (eeprom (decoder b))
        else eeprom (decoder b)) = eeprom (decoder b)) /\
    (notInitialised beyond (eeprom (decoder b)) = true ->
       (if notInitialised beyond (eeprom (decoder b))
        then setDefaults beyond (defaults (decoder b)) (eeprom (decoder b))
        else eeprom (decoder b)) =
         setDefaults beyond (defaults (decoder b)) (eeprom (decoder b))) /\
    ((0 < length (eeprom (decoder b)))%nat ->
     defaults (decoder b) !!! 0%nat = 0x55 ->
       notInitialised beyond
         (if notInitialised beyond (eeprom (decoder b))
          then setDefaults beyond (defaults (decoder b)) (eeprom (decoder b))
          else eeprom (decoder b)) = false)).
  { destruct (notInitialised beyond (eeprom (decoder b))) eqn:En.
    - split; [discriminate|]. split; [reflexivity|].
      intros Hl H0. unfold notInitialised.
      rewrite (EEPROM_read_Some beyond _ 0 (defaults (decoder b) !!! 0%nat)).
      + now rewrite H0.
      + apply setDefaults_lookup; [unfold max_cvs; lia|exact Hl].
    - split; [reflexivity|]. split; [discriminate|]. intros _ _. exact En. }
  destruct Hee as (He1 & He2 & He3).
  split; [exact He1|]. split; [exact He2|]. split; [exact He3|].
  set (ee := if notInitialised beyond (eeprom (decoder b))
             then setDefaults beyond (defaults (decoder b)) (eeprom (decoder b))
             else eeprom (decoder b)).
  split; [destruct (addressNotSet beyond ee); [rewrite Hslow|rewrite Hstart];
          reflexivity|].
  split; [destruct (addressNotSet beyond ee); [rewrite Hslow|rewrite Hstart];
          reflexivity|].
  split; [|split; [|repeat split]].
  - intros Hn. rewrite Hn. split; [apply Hslow|]. split.
    + intros clock. apply updates_mode_continuous. now rewrite Hslow.
    + intros clock Hlen Hq. rewrite <- (Hslow (List.last clock 0)).
      now apply flashSlow_period.
  - intros Hn. rewrite Hn. split; [apply Hstart|].
    intros clock extra Hlen Hq. now apply start_up_series.
Qed.

End BoardTheorems.

(** ** The theorems above at concrete inputs *)

Lemma verify_changes_nothing_witness :
  events (final (processMessage 511 (fun _ => 0xFF) 0 SmCmd
                   (mkCvAccess myAddrL verifyByte 5 false false 0)
                   (addressed_decoder 512))) = [Ack] /\
  events (final (processMessage 511 (fun _ => 0xFF) 0 SmCmd
                   (mkCvAccess myAddrL verifyByte 6 false false 0)
                   (addressed_decoder 512))) = [].
Proof.
  split.
  - destruct (verify_changes_nothing 511 (fun _ => 0xFF) 0 SmCmd
                (mkCvAccess myAddrL verifyByte 5 false false 0)
                (addressed_decoder 512)) as (_ & _ & _ & _ & _ & E).
    + left. reflexivity.
    + rewrite E. reflexivity.
  - destruct (verify_changes_nothing 511 (fun _ => 0xFF) 0 SmCmd
                (mkCvAccess myAddrL verifyByte 6 false false 0)
                (addressed_decoder 512)) as (_ & _ & _ & _ & _ & E).
    + left. reflexivity.
    + rewrite E. reflexivity.
Defined.

Lemma write_then_verify_witness :
  let o1 := processMessage 511 (fun _ => 0xFF) 0 MyPomCmd
              (mkCvAccess 3 writeByte 7 false false 0) (addressed_decoder 512) in
  let o2 := processMessage 511 (fun _ => 0xFF) 0 SmCmd
              (mkCvAccess 3 verifyByte 7 false false 0) (final o1) in
  restarted o1 = false /\
  read (fun _ => 0xFF) (eeprom (final o1)) 3 = 7 /\
  restarted o2 = false /\
  eeprom (final o2) = eeprom (final o1) /\
  events (final o2) = events (final o1) ++ [Ack].
Proof.
  apply (write_then_verify 511 (fun _ => 0xFF) 0 0 MyPomCmd 3 7 7
           false false false false 0 0 (addressed_decoder 512)).
  - lia.
  - apply Nat.ltb_lt. vm_compute. reflexivity.
  - discriminate.
  - discriminate.
  - discriminate.
  - discriminate.
Defined.

Lemma special_cvs_are_not_stored_witness :
  let o := processMessage 511 (fun _ => 0xFF) 0 SmCmd
             (mkCvAccess version writeByte 99 false false 0)
             (addressed_decoder 512) in
  eeprom (final o) = eeprom (addressed_decoder 512) /\
  events (final o) = [].
Proof.
  apply (special_cvs_are_not_stored 511 (fun _ => 0xFF) 0 SmCmd
           (mkCvAccess version writeByte 99 false false 0) (addressed_decoder 512)).
  - reflexivity.
  - left. reflexivity.
Defined.

Lemma search_blinks_witness :
  let o := processMessage 511 (fun _ => 0xFF) 40 MyPomCmd
             (mkCvAccess Search writeByte 1 false false 0)
             (addressed_decoder 512) in
  LedShouldFlash (final o) = true /\
  programmingLed (final o) = flashFast 40 led0 /\
  forall clock : list Z,
    mode (updates clock (programmingLed (final o))) = neverStopFlashing.
Proof.
  destruct (search_blinks_until_cleared 511 (fun _ => 0xFF) 40 MyPomCmd 1
              false false 0 (addressed_decoder 512)) as (_ & F & Hon & _).
  - unfold Search. lia.
  - destruct Hon as (E & _ & M); [discriminate|].
    split; [exact F|]. split; [exact E|exact M].
Defined.

Lemma timer_remaining_witness :
  (getRemain 30 30 (setTime 0 100 DccTimer_new) = 70 /\
   getElapsed 30 30 (setTime 0 100 DccTimer_new) = 31) /\
  (running 99 (setTime 0 100 DccTimer_new) = true /\
   getRemain 99 100 (setTime 0 100 DccTimer_new) = 0 /\
   getElapsed 99 100 (setTime 0 100 DccTimer_new) = 101) /\
  getRemain 99 103 (setTime 0 100 DccTimer_new) = 4294967293.
Proof.
  assert (Hr : 0 <= runTime (setTime 0 100 DccTimer_new) < 4294967296)
    by (simpl; lia).
  split; [|split].
  - destruct (timer_remaining_and_elapsed 30 30 (setTime 0 100 DccTimer_new) Hr)
      as [_ Hrun].
    destruct Hrun as (_ & Hin & _); [reflexivity|].
    destruct Hin as (_ & E & S); [reflexivity|].
    split; [|exact E]. rewrite E in S. vm_compute in S. vm_compute.
    reflexivity.
  - destruct (timer_remaining_and_elapsed 99 100 (setTime 0 100 DccTimer_new) Hr)
      as [_ Hrun].
    destruct Hrun as (_ & _ & Hat & _); [reflexivity|].
    destruct Hat as [R E]; [reflexivity|].
    split; [reflexivity|]. split; [exact R|exact E].
  - destruct (timer_remaining_and_elapsed 99 103 (setTime 0 100 DccTimer_new) Hr)
      as [_ Hrun].
    destruct Hrun as (_ & _ & _ & Hover); [reflexivity|].
    rewrite Hover; [reflexivity|]. vm_compute. reflexivity.
Defined.

Lemma steady_input_witness :
  pressedFor 5000 (DccButton_read 5200 0x00 (DccButton_read 1000 0x00 pressed_button)) = true /\
  pressedFor 5000 (DccButton_read 1000 0x00 pressed_button) = false.
Proof.
  assert (Hin : forall now port : Z,
            In (now, port) [(1000, 0x00); (5200, 0x00)] ->
            pinVal (m_invert pressed_button) (m_bit pressed_button) port =
            m_state pressed_button).
  { intros now port [E | [E | []]]; injection E as <- <-; reflexivity. }
  split.
  - destruct (steady_input_keeps_state [(1000, 0x00); (5200, 0x00)] pressed_button
                Hin 1%nat 5200 0x00
                (DccButton_read 5200 0x00 (DccButton_read 1000 0x00 pressed_button))
                eq_refl eq_refl) as (_ & _ & _ & P).
    rewrite (proj1 (P 5000)). reflexivity.
  - destruct (steady_input_keeps_state [(1000, 0x00); (5200, 0x00)] pressed_button
                Hin 0%nat 1000 0x00 (DccButton_read 1000 0x00 pressed_button)
                eq_refl eq_refl) as (_ & _ & _ & P).
    rewrite (proj1 (P 5000)). reflexivity.
Defined.

Lemma long_press_witness :
  let r := checkForNewDecoderAddress (fun _ => 0xFF) 5200 0x00 0 [] (0, 0)
             pressed_board in
  r = Rebooted (board_of r) /\
  events (decoder (board_of r)) = [Reboot] /\
  eeprom (decoder (board_of r)) = eeprom (addressed_decoder 512).
Proof.
  destruct (long_press_restores_defaults (fun _ => 0xFF) 0 5200 0x00 0 [] (0, 0) 0
              pressed_board) as (H & _).
  - reflexivity.
  - reflexivity.
  - vm_compute. discriminate.
  - cbn zeta. rewrite H. cbn [board_of]. split; [reflexivity|].
    split; [reflexivity|]. vm_compute. reflexivity.
Defined.

Lemma capture_cancelled_witness :
  exists b' : Board,
    addressProgramming (fun _ => 0xFF) 10
      (idle_passes ++ [mkLoopInput 310 None 310 0x00]) (900, 0x00)
      released_board = Returned b' /\
    eeprom (decoder b') = eeprom (addressed_decoder 512) /\
    events (decoder b') = [] /\
    ledIsOn (programmingLed (decoder b')) = false.
Proof.
  destruct (capture_cancelled_by_button (fun _ => 0xFF) 10 idle_passes
              (mkLoopInput 310 None 310 0x00) (900, 0x00) released_board)
    as (b' & H & E & _ & Ev & _ & _ & L & _).
  - repeat constructor; discriminate.
  - repeat constructor.
  - reflexivity.
  - exists b'. repeat split; assumption.
Defined.

Lemma capture_takes_first_witness :
  exists b' : Board,
    addressProgramming (fun _ => 0xFF) 10
      (idle_passes ++
       mkLoopInput 310 (Some (MyAccessoryCmd, mkAccessory 801 200)) 310 0x40 :: idle_passes)
      (900, 0x00) released_board = Rebooted b' /\
    storedAddress (fun _ => 0xFF) (eeprom (decoder b')) = 200 /\
    events (decoder b') = [Reboot].
Proof.
  destruct (capture_takes_first_accessory_command (fun _ => 0xFF) 10 idle_passes
              (mkLoopInput 310 (Some (MyAccessoryCmd, mkAccessory 801 200)) 310 0x40)
              idle_passes (900, 0x00) MyAccessoryCmd (mkAccessory 801 200) 0x80
              released_board) as (b' & H & E & Ev & _).
  - repeat constructor; discriminate.
  - repeat constructor.
  - reflexivity.
  - left. reflexivity.
  - reflexivity.
  - reflexivity.
  - exists b'. split; [exact H|]. split; [|exact Ev].
    rewrite E. reflexivity.
Defined.
